(** * PiramieExcelMaker_append: the deduplicated append engine

    A shallow embedding of [PiramieExcelMaker_append.py] and the proofs of
    its specified properties.

    Layout of the file:
    - [PyStr]: the string methods the source calls ([strip], [lower],
      [replace], [re.sub], [split], [int], [str]);
    - [PyRuntime]: the interface of the libraries the source relies on and
      that are not part of the repository (number and date parsing of
      Python and pandas, [os.path]);
    - the data model: cell values, worksheets (openpyxl), data frames
      (pandas), workbooks, files and the file system;
    - the functions of the source, under their own names;
    - the properties.

    Modelling conventions.
    - A cell holds [VNone] (None, NaN, NaT, pd.NA: everything [pd.isna]
      accepts), a text, a number or a datetime.  Datetimes are counted in
      microseconds since the epoch, so [replace(microsecond=0)] is a
      rounding down to a multiple of 1000000.
    - Strings are byte strings; the character classes are those of ASCII.
    - Python compares the elements of a key tuple with [==]: an int and a
      float of the same magnitude are equal.  Keys therefore hold
      [num_val x], the numeric value of a number object [x].
    - Reading a cell of a worksheet creates it in openpyxl when it does not
      exist yet; reads stay inside the bounding box of the sheet in every
      function below, so they are modelled as pure.
    - A workbook that is saved and loaded again is the workbook that was
      saved; cell number formats are not modelled. *)

From stdpp Require Import base option list gmap strings pretty.
From Stdlib Require Import Ascii ZArith Lia.

Local Open Scope Z_scope.
Local Open Scope nat_scope.

(** ** Python string methods *)

Module PyStr.

(** [str.isspace] on one ASCII character: TAB, LF, VT, FF, CR, the four
    separators FS, GS, RS, US and the space. *)
Definition is_space (a : ascii) : bool :=
  match a with
  | "009" | "010" | "011" | "012" | "013"
  | "028" | "029" | "030" | "031" | " " => true
  | _ => false
  end%char.

Definition is_digit (a : ascii) : bool :=
  let n := Ascii.nat_of_ascii a in (48 <=? n) && (n <=? 57).

Definition is_upper (a : ascii) : bool :=
  let n := Ascii.nat_of_ascii a in (65 <=? n) && (n <=? 90).

Definition is_lower (a : ascii) : bool :=
  let n := Ascii.nat_of_ascii a in (97 <=? n) && (n <=? 122).

Definition is_alpha (a : ascii) : bool := is_upper a || is_lower a.

Definition lower_char (a : ascii) : ascii :=
  if is_upper a then Ascii.ascii_of_nat (Ascii.nat_of_ascii a + 32) else a.

Fixpoint lower (s : string) : string :=
  match s with
  | EmptyString => EmptyString
  | String a s' => String (lower_char a) (lower s')
  end.

Fixpoint lstrip (s : string) : string :=
  match s with
  | EmptyString => EmptyString
  | String a s' => if is_space a then lstrip s' else s
  end.

Fixpoint rstrip (s : string) : string :=
  match s with
  | EmptyString => EmptyString
  | String a s' =>
      match rstrip s' with
      | EmptyString => if is_space a then EmptyString else String a EmptyString
      | r => String a r
      end
  end.

(** [s.strip()] *)
Definition strip (s : string) : string := rstrip (lstrip s).

(** [filter(p, s)] joined again, and its complement: [s.replace(c, "")]
    for a one-character [c], [re.sub("[,$]", "", s)]. *)
Fixpoint filter_chars (p : ascii → bool) (s : string) : string :=
  match s with
  | EmptyString => EmptyString
  | String a s' => if p a then String a (filter_chars p s') else filter_chars p s'
  end.

Definition remove_char (c : ascii) (s : string) : string :=
  filter_chars (λ a, negb (bool_decide (a = c))) s.

(** [re.sub(r"[,$]", "", s)] *)
Definition remove_comma_dollar (s : string) : string :=
  filter_chars (λ a, negb (bool_decide (a = ","%char) || bool_decide (a = "$"%char))) s.

(** [re.sub(r"\s+", " ", s)]: every maximal run of white space becomes
    one space. *)
Fixpoint collapse_go (in_run : bool) (s : string) : string :=
  match s with
  | EmptyString => EmptyString
  | String a s' =>
      if is_space a
      then (if in_run then collapse_go true s'
            else String " "%char (collapse_go true s'))
      else String a (collapse_go false s')
  end.

Definition collapse_spaces (s : string) : string := collapse_go false s.

(** [s.split(c)] for a one-character separator: never the empty list. *)
Fixpoint split (c : ascii) (s : string) : list string :=
  match s with
  | EmptyString => [EmptyString]
  | String a s' =>
      if bool_decide (a = c) then EmptyString :: split c s'
      else match split c s' with
           | h :: t => String a h :: t
           | [] => [String a EmptyString]
           end
  end.

Fixpoint int_go (acc : nat) (s : string) : option nat :=
  match s with
  | EmptyString => Some acc
  | String a s' =>
      match Ascii.is_nat a with
      | Some d => int_go (10 * acc + d) s'
      | None => None
      end
  end.

(** [int(s)] on a string of decimal digits, which is what
    [filter(str.isdigit, _)] hands over; [None] is the ValueError that
    [int] raises on the empty string. *)
Definition int (s : string) : option nat :=
  match s with
  | EmptyString => None
  | _ => int_go 0 s
  end.

(** [str(n)] for a non-negative int. *)
Definition str_nat (n : nat) : string := pretty n.

End PyStr.

(** ** openpyxl.utils.get_column_letter *)

Definition letter_of (r : nat) : ascii := Ascii.ascii_of_nat (r + 64).

Fixpoint column_letters (fuel col_idx : nat) (letters : string) : string :=
  match fuel with
  | 0 => letters
  | S fuel' =>
      if bool_decide (col_idx = 0) then letters
      else
        let q := col_idx / 26 in
        let r := col_idx mod 26 in
        if bool_decide (r = 0)
        then column_letters fuel' (q - 1) (String (letter_of 26) letters)
        else column_letters fuel' q (String (letter_of r) letters)
  end.

(** [None] is the ValueError for an index outside 1..18278 (three
    letters at most, hence the fuel). *)
Definition get_column_letter (col_idx : nat) : option string :=
  if (1 <=? col_idx) && (N.of_nat col_idx <=? 18278)%N
  then Some (column_letters 3 col_idx EmptyString)
  else None.

(** ** The libraries around the program

    What Python, pandas and the operating system compute for the program:
    number objects and their text, the parsers for numbers and dates, and
    [os.path].  The program is verified for every such runtime. *)

Class PyRuntime := {
  (** number objects (int, float), NaN excluded: NaN is [VNone] *)
  num : Type;
  num_eq_dec :: EqDecision num;
  (** numeric values: two number objects are [==] iff their values agree *)
  numval : Type;
  numval_eq_dec :: EqDecision numval;
  numval_countable :: Countable numval;
  num_val : num → numval;
  (** [str(x)] *)
  str_num : num → string;
  (** [str(d)] of a datetime given in microseconds since the epoch *)
  str_datetime : Z → string;
  (** [float(s)]; [None] is the ValueError *)
  py_float : string → option num;
  (** [pd.to_numeric(s, errors="coerce")] on a text; [None] is NaN *)
  to_numeric : string → option num;
  (** [pd.to_datetime(_, errors="coerce")] on a text and on a number;
      [None] is NaT *)
  datetime_of_str : string → option Z;
  datetime_of_num : num → option Z;
  (** [os.path] *)
  path_dirname : string → string;
  path_basename : string → string;
  path_splitext : string → string * string;
  path_join : string → string → string;
}.

Section Model.
Context {R : PyRuntime}.

(** ** Values *)

Inductive value :=
  | VNone
  | VStr (s : string)
  | VNum (x : num)
  | VDate (t : Z).

(** An element of a key tuple, up to [==]. *)
Inductive kval :=
  | KNone
  | KStr (s : string)
  | KNum (v : numval)
  | KDate (t : Z).

#[export] Instance value_eq_dec : EqDecision value.
Proof. solve_decision. Defined.

#[export] Instance kval_eq_dec : EqDecision kval.
Proof. solve_decision. Defined.

Definition kval_to_sum (k : kval) : unit + string + numval + Z :=
  match k with
  | KNone => inl (inl (inl tt))
  | KStr s => inl (inl (inr s))
  | KNum v => inl (inr v)
  | KDate t => inr t
  end.

Definition kval_of_sum (x : unit + string + numval + Z) : kval :=
  match x with
  | inl (inl (inl _)) => KNone
  | inl (inl (inr s)) => KStr s
  | inl (inr v) => KNum v
  | inr t => KDate t
  end.

#[export] Instance kval_countable : Countable kval.
Proof.
  apply (inj_countable' kval_to_sum kval_of_sum).
  intros []; reflexivity.
Defined.

(** A Python object as an element of a tuple. *)
Definition key_obj (v : value) : kval :=
  match v with
  | VNone => KNone
  | VStr s => KStr s
  | VNum x => KNum (num_val x)
  | VDate t => KDate t
  end.

(** [pd.isna(v)], [v is None] *)
Definition isna (v : value) : bool :=
  match v with VNone => true | _ => false end.

(** [str(v)] *)
Definition py_str (v : value) : string :=
  match v with
  | VNone => "None"
  | VStr s => s
  | VNum x => str_num x
  | VDate t => str_datetime t
  end.

(** One element under [Series.astype(str)]: a missing value is NaN. *)
Definition astype_str (v : value) : string :=
  match v with
  | VNone => "nan"
  | _ => py_str v
  end.

(** [pd.to_datetime(v, errors="coerce")]; [None] is NaT. *)
Definition to_datetime (v : value) : option Z :=
  match v with
  | VNone => None
  | VStr s => datetime_of_str s
  | VNum x => datetime_of_num x
  | VDate t => Some t
  end.

(** [d.replace(microsecond=0)] *)
Definition replace_microsecond_0 (t : Z) : Z := (t / 1000000 * 1000000)%Z.

(** ** Worksheets (openpyxl) *)

Record Worksheet := {
  cells : gmap (nat * nat) value;      (* ws._cells, keyed by (row, column) *)
  auto_filter_ref : option string;     (* ws.auto_filter.ref *)
  tables : list string;                (* tbl.ref of the tables of the sheet *)
}.

(** [ws.cell(row=r, column=c).value] *)
Definition cell_value (ws : Worksheet) (r c : nat) : value :=
  default VNone (cells ws !! (r, c)).

(** [ws.max_row] and [ws.max_column]: 1 on a sheet without cells. *)
Definition max_row (ws : Worksheet) : nat :=
  max_list_with (λ k : nat * nat, k.1) ((1, 1) :: elements (dom (cells ws))).

Definition max_column (ws : Worksheet) : nat :=
  max_list_with (λ k : nat * nat, k.2) ((1, 1) :: elements (dom (cells ws))).

(** [ws.cell(row=r, column=c, value=val)]: the cell is created when it
    does not exist, and [None] is not written. *)
Definition set_cell (ws : Worksheet) (r c : nat) (val : value) : Worksheet :=
  let cs :=
    if isna val
    then match cells ws !! (r, c) with
         | Some _ => cells ws
         | None => <[(r, c) := VNone]> (cells ws)
         end
    else <[(r, c) := val]> (cells ws) in
  {| cells := cs; auto_filter_ref := auto_filter_ref ws; tables := tables ws |}.

(** [cell.value = v] on an existing or new cell. *)
Definition assign_cell (ws : Worksheet) (r c : nat) (v : value) : Worksheet :=
  {| cells := <[(r, c) := v]> (cells ws);
     auto_filter_ref := auto_filter_ref ws; tables := tables ws |}.

(** [enumerate(ws[1], start=1)]: the header row over the width of the sheet. *)
Definition header_row (ws : Worksheet) : list (nat * value) :=
  (λ c, (c, cell_value ws 1 c)) <$> seq 1 (max_column ws).

(** ** Data frames (pandas), column by column *)

Record DataFrame := {
  nrows : nat;                          (* len(df) *)
  cols : list (string * list value);    (* label and values of each column *)
}.

Definition columns (df : DataFrame) : list string := (cols df).*1.

(** [c in df.columns] *)
Definition has_column (df : DataFrame) (c : string) : bool :=
  bool_decide (c ∈ columns df).

Fixpoint assoc {A} (c : string) (l : list (string * A)) : option A :=
  match l with
  | [] => None
  | (k, v) :: l' => if bool_decide (k = c) then Some v else assoc c l'
  end.

(** [df[c]] *)
Definition column (df : DataFrame) (c : string) : list value :=
  default [] (assoc c (cols df)).

(** [df.iloc[i][c]]; a missing entry reads as NA. *)
Definition iloc (df : DataFrame) (i : nat) (c : string) : value :=
  nth i (column df c) VNone.

Fixpoint assoc_set {A} (c : string) (v : A) (l : list (string * A)) : list (string * A) :=
  match l with
  | [] => [(c, v)]
  | (k, w) :: l' => if bool_decide (k = c) then (k, v) :: l' else (k, w) :: assoc_set c v l'
  end.

(** [df[c] = vs]: replaces the column, or appends it as the last one. *)
Definition set_column (df : DataFrame) (c : string) (vs : list value) : DataFrame :=
  {| nrows := nrows df; cols := assoc_set c vs (cols df) |}.

(** [df[c] = pd.NA] *)
Definition set_column_na (df : DataFrame) (c : string) : DataFrame :=
  set_column df c (replicate (nrows df) VNone).

(** ** Workbooks, files, the world *)

Record file := {
  wb_view : option (gmap string Worksheet);  (* load_workbook: the sheets by name *)
  df_view : option DataFrame;                (* pd.read_excel(_, sheet_name=0, header=3) *)
}.

Record World := {
  fs : gmap string file;     (* regular files by path *)
  clock : string;            (* datetime.now().strftime("%Y%m%d-%H%M%S") *)
}.

Inductive error :=
  | FileNotFoundError (msg : string)
  | RuntimeError (msg : string)
  | ValueError
  | InvalidFileException.

(** Computations that read and change the world and may raise. *)
Definition io (A : Type) : Type := World → World * (error + A).

#[export] Instance io_ret : MRet io := λ A x w, (w, inr x).
#[export] Instance io_bind : MBind io := λ A B f m w,
  match m w with
  | (w', inr x) => f x w'
  | (w', inl e) => (w', inl e)
  end.

Definition raise {A} (e : error) : io A := λ w, (w, inl e).
Definition get_world : io World := λ w, (w, inr w).
Definition put_fs (fs' : gmap string file) : io unit :=
  λ w, ({| fs := fs'; clock := clock w |}, inr tt).

(** Lifting a pure computation that may raise. *)
Definition lift {A} (x : error + A) : io A := λ w, (w, x).

End Model.

(** ** The program *)

Section Code.
Context {R : PyRuntime}.

Definition APR_SHEET : string := "APR Bundle".

Definition DEDUPE_FIELDS : list string :=
  ["MSISDN"; "Purchase Date"; "PRODUCT_NAME"; "PURCHASE_AMT"; "CONTRACT_ID"; "PRODUCT_ID"].

(** Monthly label -> acceptable APR header spellings, in the order of the
    dict literal. *)
Definition COLUMN_MAP : list (string * list string) :=
  [ ("Cust Name", ["CUSTOMER_NAME"]);
    ("Cust Type", ["CUSTOMER_TYPE"]);
    ("MSISDN", ["MSISDN"]);
    ("Purchase Date", ["Purchase Date"]);
    ("Prod Name", ["PRODUCT_NAME"]);
    ("Amount", ["PURCHASE_AMT"]);
    ("Package Status", ["STAT"]);
    ("API Credit Type", ["API Credit Type"; "API  Credit Type"]);
    ("Prod Code", ["PRODUCT_ID"]);
    ("CRTR_ID", ["CONTRACT_ID"]) ].

(** *** utilities *)

Definition _timestamp : io string :=
  w ← get_world; mret (clock w).

(** [shutil.copy2(src, dst)] *)
Definition copy2 (src dst : string) : io unit :=
  w ← get_world;
  match fs w !! src with
  | Some f => put_fs (<[dst := f]> (fs w))
  | None => raise (FileNotFoundError src)
  end.

(** Directories are not modelled, so [os.makedirs] leaves no trace. *)
Definition _backup_master (master_path : string) : io string :=
  let backup_dir := path_join (path_dirname master_path) "_backups" in
  let '(name, ext) := path_splitext (path_basename master_path) in
  ts ← _timestamp;
  let backup_path := path_join backup_dir (name +:+ "_backup_" +:+ ts +:+ ext) in
  _ ← copy2 master_path backup_path;
  mret backup_path.

Definition _norm (s : value) : string :=
  PyStr.lower (PyStr.strip (PyStr.collapse_spaces (py_str s))).

Definition _build_apr_header_index (ws : Worksheet) : gmap string nat :=
  foldl (λ (header_map : gmap string nat) '(col_idx, v),
           if isna v then header_map
           else <[_norm v := col_idx]> header_map)
        ∅ (header_row ws).

Fixpoint _resolve_target_col (apr_header_map : gmap string nat)
    (candidates : list string) : option nat :=
  match candidates with
  | [] => None
  | name :: rest =>
      match apr_header_map !! _norm (VStr name) with
      | Some col => Some col
      | None => _resolve_target_col apr_header_map rest
      end
  end.

Definition _coerce_for_excel (val : value) : value :=
  match val with
  | VNone => VNone
  | VStr s => VStr (PyStr.strip s)
  | _ => val
  end.

(** [any(ws.cell(row=r, column=c).value is not None for c in range(1, to_col + 1))] *)
Definition row_has_value (ws : Worksheet) (to_col r : nat) : bool :=
  existsb (λ c, negb (isna (cell_value ws r c))) (seq 1 to_col).

Definition _last_used_row (ws : Worksheet) (from_row : nat) (to_col : option nat)
    : nat * nat :=
  let to_col :=
    match to_col with
    | Some c => c
    | None =>
        match (filter (λ cv : nat * value, isna cv.2 = false) (header_row ws)).*1 with
        | [] => max_column ws
        | cs => max_list cs
        end
    end in
  let last :=
    foldl (λ last r, if row_has_value ws to_col r then r else last)
          1 (seq from_row (max_row ws + 1 - from_row)) in
  (last, to_col).

(** One table of the loop of [_expand_filters_and_tables]; every failure
    inside the [try] leaves the reference as it is. *)
Definition expand_table_ref (last_row : nat) (ref : string) : string :=
  match PyStr.split ":" ref with
  | [start; end_] =>
      match PyStr.int (PyStr.filter_chars PyStr.is_digit start) with
      | Some 1 =>
          PyStr.filter_chars PyStr.is_alpha start +:+ "1:" +:+
          PyStr.filter_chars PyStr.is_alpha end_ +:+ PyStr.str_nat last_row
      | _ => ref
      end
  | _ => ref
  end.

Definition _expand_filters_and_tables (ws : Worksheet) : error + Worksheet :=
  let '(last_row, last_col) := _last_used_row ws 2 None in
  match get_column_letter last_col with
  | None => inl ValueError
  | Some end_col_letter =>
      let ref' :=
        match auto_filter_ref ws with
        | Some EmptyString => Some EmptyString
        | Some _ => Some ("A1:" +:+ end_col_letter +:+ PyStr.str_nat last_row)
        | None => None
        end in
      inr {| cells := cells ws;
             auto_filter_ref := ref';
             tables := expand_table_ref last_row <$> tables ws |}
  end.

Fixpoint find_header (target : string) (row : list (nat * value)) : option nat :=
  match row with
  | [] => None
  | (c, v) :: row' =>
      if isna v then find_header target row'
      else if bool_decide (_norm v = target) then Some c
      else find_header target row'
  end.

Definition _find_header_col (ws : Worksheet) (header_text : string) : option nat :=
  find_header (_norm (VStr header_text)) (header_row ws).

(** One iteration of the loop of [_normalize_purchase_date_column]. *)
Definition normalize_date_cell (col : nat) (ws : Worksheet) (r : nat) : Worksheet :=
  match cell_value ws r col with
  | VNone | VDate _ => ws
  | v =>
      match datetime_of_str (py_str v) with
      | Some dt => assign_cell ws r col (VDate dt)
      | None => ws
      end
  end.

Definition _normalize_purchase_date_column (ws : Worksheet) : Worksheet :=
  match _find_header_col ws "Purchase Date" with
  | None => ws
  | Some col =>
      let '(last_row, _) := _last_used_row ws 2 None in
      foldl (normalize_date_cell col) ws (seq 2 (last_row + 1 - 2))
  end.

(** The identity fields that have a column on the sheet, with the column. *)
Definition present_fields (ws : Worksheet) : list (string * nat) :=
  omap (λ f, match _find_header_col ws f with
             | Some col => Some (f, col)
             | None => None
             end) DEDUPE_FIELDS.

(** The [parts] that the loop of [_read_existing_keys] builds for row [r]. *)
Definition existing_row_key (ws : Worksheet) (present : list (string * nat)) (r : nat)
    : list kval :=
  (λ '(f, col),
     let v := cell_value ws r col in
     if isna v then KNone
     else if bool_decide (f = "Purchase Date") then
       match to_datetime v with
       | None => KNone
       | Some dt => KDate (replace_microsecond_0 dt)
       end
     else if bool_decide (f = "PURCHASE_AMT") then
       match py_float (PyStr.strip (PyStr.remove_char "$"
                         (PyStr.remove_char "," (py_str v)))) with
       | Some x => KNum (num_val x)
       | None => key_obj v
       end
     else
       match v with
       | VStr s => KStr (PyStr.strip s)
       | _ => key_obj v
       end) <$> present.

Definition _read_existing_keys (ws : Worksheet) : gset (list kval) :=
  let present := present_fields ws in
  match present with
  | [] => ∅
  | _ =>
      let '(last_row, _) := _last_used_row ws 2 None in
      foldl (λ (keys : gset (list kval)) r,
               {[ existing_row_key ws present r ]} ∪ keys)
            ∅ (seq 2 (last_row + 1 - 2))
  end.

(** [_make_row_key(month_df.iloc[i])] *)
Definition _make_row_key (month_df : DataFrame) (i : nat) : list kval :=
  (λ f,
     if negb (has_column month_df f) || isna (iloc month_df i f) then KNone
     else
       let v := iloc month_df i f in
       if bool_decide (f = "Purchase Date") then
         match to_datetime v with
         | None => KNone
         | Some dt => KDate (replace_microsecond_0 dt)
         end
       else if bool_decide (f = "PURCHASE_AMT") then
         match py_float (PyStr.strip (PyStr.remove_char "$"
                           (PyStr.remove_char "," (py_str v)))) with
         | Some x => KNum (num_val x)
         | None => key_obj v
         end
       else
         match v with
         | VStr s => KStr (PyStr.strip s)
         | _ => key_obj v
         end) <$> DEDUPE_FIELDS.

Definition aliases : list (string * string) :=
  [ ("cust name", "Cust Name"); ("customer name", "Cust Name");
    ("cust type", "Cust Type"); ("customer type", "Cust Type");
    ("msisdn", "MSISDN");
    ("purchase date", "Purchase Date"); ("date", "Purchase Date");
    ("prod name", "Prod Name"); ("product name", "Prod Name");
    ("amount", "Amount"); ("purchase amount", "Amount"); ("purchase amt", "Amount");
    ("package status", "Package Status"); ("stat", "Package Status");
    ("api credit type", "API Credit Type");
    ("prod code", "Prod Code"); ("product id", "Prod Code");
    ("crtr_id", "CRTR_ID"); ("crtr id", "CRTR_ID"); ("contract id", "CRTR_ID") ].

(** The labels of a frame are modelled by their text.  After the renaming
    a label that occurs twice makes [df[c].isna().all()] a Series, whose
    truth value is the ValueError; the frames of [read_excel] have no
    repeated label before the renaming. *)
Definition _normalize_columns (df : DataFrame) : error + DataFrame :=
  let new_cols :=
    (λ '(c, vs),
       let nc := _norm (VStr c) in
       (default c (assoc nc aliases), vs)) <$> cols df in
  if bool_decide (NoDup new_cols.*1) then
    inr {| nrows := nrows df;
           cols := filter (λ cv : string * list value, forallb isna cv.2 = false)
                          new_cols |}
  else inl ValueError.

Definition _coerce_and_derive (df : DataFrame) : DataFrame :=
  let df :=
    if has_column df "Purchase Date" then
      set_column df "Purchase Date"
        ((λ v, match to_datetime v with Some dt => VDate dt | None => VNone end)
           <$> column df "Purchase Date")
    else df in
  let df :=
    if has_column df "MSISDN" then
      set_column df "MSISDN"
        ((λ v, let s := PyStr.strip (astype_str v) in
               if bool_decide (PyStr.lower s ∈ ["nan"; "none"; ""]) then VNone
               else VStr s) <$> column df "MSISDN")
    else df in
  let df :=
    if has_column df "Amount" then
      set_column df "PURCHASE_AMT"
        ((λ v, let amt := PyStr.strip (PyStr.remove_char "$"
                            (PyStr.remove_char "," (astype_str v))) in
               match to_numeric amt with Some x => VNum x | None => VNone end)
           <$> column df "Amount")
    else set_column_na df "PURCHASE_AMT" in
  let df :=
    if has_column df "Prod Name" then set_column df "PRODUCT_NAME" (column df "Prod Name")
    else set_column_na df "PRODUCT_NAME" in
  let df :=
    if has_column df "Prod Code" then set_column df "PRODUCT_ID" (column df "Prod Code")
    else set_column_na df "PRODUCT_ID" in
  let df :=
    if has_column df "CRTR_ID" then set_column df "CONTRACT_ID" (column df "CRTR_ID")
    else set_column_na df "CONTRACT_ID" in
  foldl (λ df col, if has_column df col then df else set_column_na df col)
        df ["MSISDN"; "Purchase Date"; "PRODUCT_NAME"; "PURCHASE_AMT"; "CONTRACT_ID"; "PRODUCT_ID"].

Definition _read_month_file (month_path : string) : io DataFrame :=
  w ← get_world;
  match fs w !! month_path ≫= df_view with
  | None =>
      raise (RuntimeError ("Failed to read monthly file '" +:+ month_path +:+ "'"))
  | Some raw =>
      raw ← lift (_normalize_columns raw);
      mret (_coerce_and_derive raw)
  end.

(** *** main API *)

Record IngestResult := {
  master_backup : string;
  updated_master : string;
  rows_before : nat;
  rows_added : nat;
  rows_after : nat;
  sheet : string;
  dedupe_skipped : option nat;      (* absent from the zero-mapping result *)
  unmapped_monthly_columns : list string;
  unresolved_targets : list (string * list string);
  resolved_map : list (string * string);
}.

(** [os.path.isfile(path)] *)
Definition isfile (w : World) (path : string) : bool :=
  bool_decide (is_Some (fs w !! path)).

(** [load_workbook(path, keep_vba=True)] *)
Definition load_workbook (path : string) : io (gmap string Worksheet) :=
  w ← get_world;
  match fs w !! path ≫= wb_view with
  | Some wb => mret wb
  | None => raise InvalidFileException
  end.

(** [wb.save(path)]: the file now loads as [wb].  What [read_excel] makes
    of the path is left as it was; the program never reads the master
    that way. *)
Definition save (wb : gmap string Worksheet) (path : string) : io unit :=
  w ← get_world;
  put_fs (<[path := {| wb_view := Some wb;
                       df_view := fs w !! path ≫= df_view |}]> (fs w)).

(** The three collections that the resolution loop fills. *)
Record Resolution := {
  res_resolved_map : list (string * nat);
  res_skipped_targets : list (string * list string);
  res_missing_monthly : list string;
}.

(** One iteration of the resolution loop. *)
Definition resolve_step (month_df : DataFrame) (apr_header_map : gmap string nat)
    (acc : Resolution) (entry : string * list string) : Resolution :=
  let '(monthly_label, targets) := entry in
  if negb (has_column month_df monthly_label) then
    {| res_resolved_map := res_resolved_map acc;
       res_skipped_targets := res_skipped_targets acc;
       res_missing_monthly := res_missing_monthly acc ++ [monthly_label] |}
  else
    match _resolve_target_col apr_header_map targets with
    | None =>
        {| res_resolved_map := res_resolved_map acc;
           res_skipped_targets := res_skipped_targets acc ++ [(monthly_label, targets)];
           res_missing_monthly := res_missing_monthly acc |}
    | Some col_idx =>
        {| res_resolved_map := res_resolved_map acc ++ [(monthly_label, col_idx)];
           res_skipped_targets := res_skipped_targets acc;
           res_missing_monthly := res_missing_monthly acc |}
    end.

Definition resolve_columns (month_df : DataFrame) (apr_header_map : gmap string nat)
    : Resolution :=
  foldl (resolve_step month_df apr_header_map)
        {| res_resolved_map := []; res_skipped_targets := []; res_missing_monthly := [] |}
        COLUMN_MAP.

(** The value that the inner loop writes for column [m_col] of row [i]. *)
Definition cell_to_write (month_df : DataFrame) (i : nat) (m_col : string) : value :=
  let val := _coerce_for_excel (iloc month_df i m_col) in
  let val :=
    match val with
    | VStr s =>
        if bool_decide (m_col = "Amount") then
          let s' := PyStr.strip (PyStr.remove_comma_dollar s) in
          match py_float s' with
          | Some x => VNum x
          | None => VStr s'
          end
        else val
    | _ => val
    end in
  if bool_decide (m_col = "Purchase Date") then
    match to_datetime val with
    | None => VNone
    | Some dt => VDate (replace_microsecond_0 dt)
    end
  else val.

(** The state of the write loop. *)
Record LoopState := {
  st_ws : Worksheet;
  st_existing_keys : gset (list kval);
  st_written : nat;
  st_duplicates_skipped : nat;
}.

(** The inner loop over the resolved columns. *)
Definition write_cells (month_df : DataFrame) (resolved_map : list (string * nat))
    (i target_row : nat) (ws : Worksheet) : Worksheet * bool :=
  foldl (λ '(ws, row_has_any) '(m_col, col_idx),
           let val := cell_to_write month_df i m_col in
           (set_cell ws target_row col_idx val,
            if isna val then row_has_any else true))
        (ws, false) resolved_map.

(** One iteration of the loop over the monthly rows. *)
Definition append_row (month_df : DataFrame) (resolved_map : list (string * nat))
    (start_row : nat) (st : LoopState) (i : nat) : LoopState :=
  let row_key := _make_row_key month_df i in
  if bool_decide (row_key ∈ st_existing_keys st) then
    {| st_ws := st_ws st; st_existing_keys := st_existing_keys st;
       st_written := st_written st;
       st_duplicates_skipped := st_duplicates_skipped st + 1 |}
  else
    let target_row := start_row + st_written st in
    let '(ws, row_has_any) :=
      write_cells month_df resolved_map i target_row (st_ws st) in
    if row_has_any then
      {| st_ws := ws; st_existing_keys := {[ row_key ]} ∪ st_existing_keys st;
         st_written := st_written st + 1;
         st_duplicates_skipped := st_duplicates_skipped st |}
    else
      {| st_ws := ws; st_existing_keys := st_existing_keys st;
         st_written := st_written st;
         st_duplicates_skipped := st_duplicates_skipped st |}.

Definition append_rows (month_df : DataFrame) (resolved_map : list (string * nat))
    (start_row : nat) (ws : Worksheet) (existing_keys : gset (list kval)) : LoopState :=
  foldl (append_row month_df resolved_map start_row)
        {| st_ws := ws; st_existing_keys := existing_keys;
           st_written := 0; st_duplicates_skipped := 0 |}
        (seq 0 (nrows month_df)).

(** [{k: get_column_letter(v) for k, v in resolved_map.items()}] *)
Fixpoint column_letters_of (resolved_map : list (string * nat))
    : error + list (string * string) :=
  match resolved_map with
  | [] => inr []
  | (k, v) :: rest =>
      match get_column_letter v with
      | None => inl ValueError
      | Some l =>
          match column_letters_of rest with
          | inl e => inl e
          | inr ls => inr ((k, l) :: ls)
          end
      end
  end.

Definition ingest_month_into_apr_bundle (master_xlsm_path month_report_path : string)
    : io IngestResult :=
  w ← get_world;
  if negb (isfile w master_xlsm_path) then
    raise (FileNotFoundError ("Master not found: " +:+ master_xlsm_path))
  else if negb (isfile w month_report_path) then
    raise (FileNotFoundError ("Month file not found: " +:+ month_report_path))
  else
    month_df ← _read_month_file month_report_path;
    wb ← load_workbook master_xlsm_path;
    match wb !! APR_SHEET with
    | None => raise (RuntimeError "'APR Bundle' sheet not found in master.")
    | Some ws =>
        let existing_keys := _read_existing_keys ws in
        let '(last_used_before, header_width) := _last_used_row ws 2 None in
        let rows_before := Nat.max 0 (last_used_before - 1) in
        let apr_header_map := _build_apr_header_index ws in
        let res := resolve_columns month_df apr_header_map in
        backup_path ← _backup_master master_xlsm_path;
        match res_resolved_map res with
        | [] =>
            mret {| master_backup := backup_path;
                    updated_master := master_xlsm_path;
                    rows_before := rows_before;
                    rows_added := 0;
                    rows_after := rows_before;
                    sheet := APR_SHEET;
                    dedupe_skipped := None;
                    unmapped_monthly_columns := res_missing_monthly res;
                    unresolved_targets := res_skipped_targets res;
                    resolved_map := [] |}
        | resolved =>
            let start_row := last_used_before + 1 in
            let st := append_rows month_df resolved start_row ws existing_keys in
            ws ← lift (_expand_filters_and_tables (st_ws st));
            let ws := _normalize_purchase_date_column ws in
            _ ← save (<[APR_SHEET := ws]> wb) master_xlsm_path;
            let '(last_used_after, _) := _last_used_row ws 2 None in
            let rows_after := Nat.max 0 (last_used_after - 1) in
            let rows_added := st_written st in
            letters ← lift (column_letters_of resolved);
            mret {| master_backup := backup_path;
                    updated_master := master_xlsm_path;
                    rows_before := rows_before;
                    rows_added := rows_added;
                    rows_after := rows_after;
                    sheet := APR_SHEET;
                    dedupe_skipped := Some (st_duplicates_skipped st);
                    unmapped_monthly_columns :=
                      filter (λ c, has_column month_df c = false) COLUMN_MAP.*1;
                    unresolved_targets := res_skipped_targets res;
                    resolved_map := letters |}
        end
    end.

End Code.

(** ** A concrete runtime

    Whole numbers only: a number object is an integer, [str] prints it in
    decimal, and [float] and [to_numeric] accept an optional sign followed
    by decimal digits and reject everything else.  No text is read as a
    date.  Paths are POSIX paths.  The runtime is used to evaluate the
    program on concrete ledgers and reports. *)

Module Plain.

Definition parse_int (s : string) : option Z :=
  match s with
  | String "-" s' => (λ n, - Z.of_nat n)%Z <$> PyStr.int s'
  | String "+" s' => Z.of_nat <$> PyStr.int s'
  | _ => Z.of_nat <$> PyStr.int s
  end.

(** [(head, tail)] around the last slash of a path. *)
Fixpoint split_last_slash (p : string) : option string * string :=
  match p with
  | EmptyString => (None, EmptyString)
  | String a p' =>
      match split_last_slash p' with
      | (Some h, t) => (Some (String a h), t)
      | (None, t) =>
          if bool_decide (a = "/"%char) then (Some (String a EmptyString), t)
          else (None, String a t)
      end
  end.

Fixpoint rstrip_slash (s : string) : string :=
  match s with
  | EmptyString => EmptyString
  | String a s' =>
      match rstrip_slash s' with
      | EmptyString => if bool_decide (a = "/"%char) then EmptyString
                       else String a EmptyString
      | r => String a r
      end
  end.

Definition dirname (p : string) : string :=
  match split_last_slash p with
  | (Some h, _) => match rstrip_slash h with EmptyString => h | h' => h' end
  | (None, _) => EmptyString
  end.

Definition basename (p : string) : string := (split_last_slash p).2.

(** [(root, ext)] around the last dot that follows a character other
    than a dot. *)
Fixpoint splitext_go (seen : bool) (p : string) : option string * string :=
  match p with
  | EmptyString => (None, EmptyString)
  | String a p' =>
      let dot := bool_decide (a = "."%char) in
      match splitext_go (seen || negb dot) p' with
      | (Some r, e) => (Some (String a r), e)
      | (None, e) =>
          if dot && seen then (Some EmptyString, String a e)
          else (None, String a e)
      end
  end.

Definition splitext (p : string) : string * string :=
  match splitext_go false p with
  | (Some r, e) => (r, e)
  | (None, e) => (e, EmptyString)
  end.

Definition ends_with_slash (a : string) : bool :=
  match String.rev a with
  | String "/" _ => true
  | _ => false
  end.

Definition join (a b : string) : string :=
  match b with
  | String "/" _ => b
  | _ =>
      if bool_decide (a = EmptyString) || ends_with_slash a then a +:+ b
      else a +:+ "/" +:+ b
  end.

#[export] Instance runtime : PyRuntime := {|
  num := Z;
  numval := Z;
  num_val := id;
  str_num := pretty;
  str_datetime := λ t, "datetime:" +:+ pretty t;
  py_float := parse_int;
  to_numeric := parse_int;
  datetime_of_str := λ _, None;
  datetime_of_num := λ _, None;
  path_dirname := dirname;
  path_basename := basename;
  path_splitext := splitext;
  path_join := join;
|}.

(** A worksheet from its rows, the header row first; no filter, no
    table. *)
Definition sheet_of_rows (rows : list (list (@value runtime))) : @Worksheet runtime :=
  {| cells :=
       list_to_map
         (concat (imap (λ r row, imap (λ c v, ((S r, S c), v)) row) rows));
     auto_filter_ref := None;
     tables := [] |}.

(** The rows of a worksheet over the given height and width. *)
Definition rows_of_sheet (ws : @Worksheet runtime) (height width : nat)
    : list (list (@value runtime)) :=
  (λ r, (λ c, cell_value ws r c) <$> seq 1 width) <$> seq 1 height.

(** The file of a ledger with the single sheet "APR Bundle", the file of a
    monthly report, and a world that holds the first at [data/master.xlsm]
    and the second at [data/month.xlsx]. *)
Definition ledger_file (ws : @Worksheet runtime) : @file runtime :=
  {| wb_view := Some {[ "APR Bundle" := ws ]}; df_view := None |}.

Definition report_file (month : @DataFrame runtime) : @file runtime :=
  {| wb_view := None; df_view := Some month |}.

Definition world_of (ws : @Worksheet runtime) (month : @DataFrame runtime)
    : @World runtime :=
  {| fs := <["data/master.xlsm" := ledger_file ws]>
             (<["data/month.xlsx" := report_file month]> ∅);
     clock := "20240131-120000" |}.

(** The frame that a run derives from a report. *)
Definition frame_of (month : @DataFrame runtime) : @DataFrame runtime :=
  match _normalize_columns month with
  | inr df => _coerce_and_derive df
  | inl _ => month
  end.

End Plain.

(** ** Vocabulary of the properties *)

Section Vocabulary.
Context {R : PyRuntime}.

(** The two components of [_last_used_row(ws, from_row=2)]. *)
Definition last_used (ws : Worksheet) : nat := (_last_used_row ws 2 None).1.
Definition header_width (ws : Worksheet) : nat := (_last_used_row ws 2 None).2.

(** The columns of the header row that hold a value. *)
Definition header_cols (ws : Worksheet) : list nat :=
  (filter (λ cv : nat * value, isna cv.2 = false) (header_row ws)).*1.

(** The ledger sheet that a run loads and the monthly frame that it reads. *)
Definition ledger_sheet (w : World) (master : string) : option Worksheet :=
  match fs w !! master ≫= wb_view with
  | Some wb => wb !! APR_SHEET
  | None => None
  end.

Definition monthly_frame (w : World) (month : string) : option DataFrame :=
  match fs w !! month ≫= df_view with
  | Some raw =>
      match _normalize_columns raw with
      | inr df => Some (_coerce_and_derive df)
      | inl _ => None
      end
  | None => None
  end.

(** The resolved mapping of a run. *)
Definition resolved_of (ws : Worksheet) (month_df : DataFrame) : list (string * nat) :=
  res_resolved_map (resolve_columns month_df (_build_apr_header_index ws)).

(** Every target spelling of [COLUMN_MAP] in normal form, with its
    monthly label. *)
Definition target_norms : list (string * string) :=
  COLUMN_MAP ≫= (λ e : string * list string, (λ n, (_norm (VStr n), e.1)) <$> e.2).

(** One entry of [COLUMN_MAP] in the resolution loop. *)
Definition resolve_entry (df : DataFrame) (hm : gmap string nat) (e : string * list string)
    : option (string * nat) :=
  if has_column df e.1 then (λ c, (e.1, c)) <$> _resolve_target_col hm e.2 else None.

(** Row [i] of the report has a value for some resolved column. *)
Definition row_has_any (month_df : DataFrame) (resolved : list (string * nat)) (i : nat)
    : bool :=
  existsb (λ mc : string * nat, negb (isna (cell_to_write month_df i mc.1))) resolved.

(** The decisions of the write loop, without the worksheet: the key set,
    the rows accepted so far and the rows skipped as duplicates, both in
    the order of the report. *)
Record Trace := {
  tr_keys : gset (list kval);
  tr_accepted : list nat;
  tr_duplicates : list nat;
}.

Definition trace_step (month_df : DataFrame) (resolved : list (string * nat))
    (t : Trace) (i : nat) : Trace :=
  let row_key := _make_row_key month_df i in
  if bool_decide (row_key ∈ tr_keys t) then
    {| tr_keys := tr_keys t; tr_accepted := tr_accepted t;
       tr_duplicates := tr_duplicates t ++ [i] |}
  else if row_has_any month_df resolved i then
    {| tr_keys := {[ row_key ]} ∪ tr_keys t; tr_accepted := tr_accepted t ++ [i];
       tr_duplicates := tr_duplicates t |}
  else t.

Definition trace_from (month_df : DataFrame) (resolved : list (string * nat))
    (t : Trace) (rows : list nat) : Trace :=
  foldl (trace_step month_df resolved) t rows.

Definition trace (month_df : DataFrame) (resolved : list (string * nat))
    (existing_keys : gset (list kval)) : Trace :=
  trace_from month_df resolved
    {| tr_keys := existing_keys; tr_accepted := []; tr_duplicates := [] |}
    (seq 0 (nrows month_df)).

(** The loop and its decision trace agree on keys and counters. *)
Definition agree (st : LoopState) (t : Trace) : Prop :=
  st_existing_keys st = tr_keys t ∧
  st_written st = length (tr_accepted t) ∧
  st_duplicates_skipped st = length (tr_duplicates t).

(** What the loop has done to the sheet [ws0] it started from, after any
    number of iterations: it wrote the accepted rows, one below the
    other from [start] on, and nothing else. *)
Record SheetInv (df : DataFrame) (resolved : list (string * nat)) (start : nat)
    (ws0 : Worksheet) (st : LoopState) (t : Trace) : Prop := {
  inv_width : max_column (st_ws st) = max_column ws0;
  inv_filter : auto_filter_ref (st_ws st) = auto_filter_ref ws0;
  inv_tables : tables (st_ws st) = tables ws0;
  inv_above : ∀ r c, r < start → cell_value (st_ws st) r c = cell_value ws0 r c;
  inv_below : ∀ r c, start + st_written st ≤ r →
                cell_value (st_ws st) r c = cell_value ws0 r c;
  inv_other : ∀ r c, c ∉ resolved.*2 → cell_value (st_ws st) r c = cell_value ws0 r c;
  inv_kept : ∀ r c, cell_value ws0 r c ≠ VNone → cell_value (st_ws st) r c ≠ VNone;
  inv_rows : ∀ k i, tr_accepted t !! k = Some i →
               row_has_any df resolved i = true ∧
               ∀ m c, (m, c) ∈ resolved →
                 cell_value (st_ws st) (start + k) c =
                   if isna (cell_to_write df i m) then cell_value ws0 (start + k) c
                   else cell_to_write df i m;
}.

(** What [_normalize_purchase_date_column] makes of one cell. *)
Definition normalized_date (v : value) : value :=
  match v with
  | VNone | VDate _ => v
  | _ =>
      match datetime_of_str (py_str v) with
      | Some dt => VDate dt
      | None => v
      end
  end.

(** The write loop of a run on sheet [ws] with frame [month_df], and the
    sheet that the run saves when the loop is reached. *)
Definition loop_of (ws : Worksheet) (month_df : DataFrame) : LoopState :=
  append_rows month_df (resolved_of ws month_df) (last_used ws + 1) ws
    (_read_existing_keys ws).

Definition final_sheet (ws : Worksheet) (month_df : DataFrame) : error + Worksheet :=
  match _expand_filters_and_tables (st_ws (loop_of ws month_df)) with
  | inl e => inl e
  | inr ws' => inr (_normalize_purchase_date_column ws')
  end.

(** The path of the backup that a run takes at time [clock]. *)
Definition backup_path_of (master_path ts : string) : string :=
  let backup_dir := path_join (path_dirname master_path) "_backups" in
  let '(name, ext) := path_splitext (path_basename master_path) in
  path_join backup_dir (name +:+ "_backup_" +:+ ts +:+ ext).

(** The result of a run past the backup: the sheet that is saved, if
    any, and what is returned or raised. *)
Definition outcome (master_path backup_path : string) (ws : Worksheet)
    (month_df : DataFrame) : option Worksheet * (error + IngestResult) :=
  let res := resolve_columns month_df (_build_apr_header_index ws) in
  let rows_before := Nat.max 0 (last_used ws - 1) in
  match res_resolved_map res with
  | [] =>
      (None,
       inr {| master_backup := backup_path;
              updated_master := master_path;
              rows_before := rows_before;
              rows_added := 0;
              rows_after := rows_before;
              sheet := APR_SHEET;
              dedupe_skipped := None;
              unmapped_monthly_columns := res_missing_monthly res;
              unresolved_targets := res_skipped_targets res;
              resolved_map := [] |})
  | resolved =>
      match final_sheet ws month_df with
      | inl e => (None, inl e)
      | inr ws' =>
          (Some ws',
           match column_letters_of resolved with
           | inl e => inl e
           | inr letters =>
               inr {| master_backup := backup_path;
                      updated_master := master_path;
                      rows_before := rows_before;
                      rows_added := st_written (loop_of ws month_df);
                      rows_after := Nat.max 0 (last_used ws' - 1);
                      sheet := APR_SHEET;
                      dedupe_skipped :=
                        Some (st_duplicates_skipped (loop_of ws month_df));
                      unmapped_monthly_columns :=
                        filter (λ c, has_column month_df c = false) COLUMN_MAP.*1;
                      unresolved_targets := res_skipped_targets res;
                      resolved_map := letters |}
           end)
      end
  end.

(** The file system after the backup and after the optional save. *)
Definition fs_after (fs0 : gmap string file) (master_path backup_path : string)
    (fm : file) (wb : gmap string Worksheet) (saved : option Worksheet)
    : gmap string file :=
  let fs1 := <[backup_path := fm]> fs0 in
  match saved with
  | None => fs1
  | Some ws' =>
      <[master_path := {| wb_view := Some (<[APR_SHEET := ws']> wb);
                          df_view := fs1 !! master_path ≫= df_view |}]> fs1
  end.

(** The labels of a frame after the renaming of [_normalize_columns]. *)
Definition renamed_labels (df : DataFrame) : list string :=
  (λ c, default c (assoc (_norm (VStr c)) aliases)) <$> columns df.

(** One iteration of the closing loop of [_coerce_and_derive]. *)
Definition ensure_column (X : DataFrame) (col : string) : DataFrame :=
  if has_column X col then X else set_column_na X col.

(** The run raised. *)
Definition raised {A} (x : error + A) : bool :=
  match x with inl _ => true | inr _ => false end.

End Vocabulary.

(** ** Concrete ledgers and reports

    The inputs on which the properties below are evaluated, all over the
    runtime [Plain.runtime]. *)

Module Demo.
Import Plain.

Definition master : string := "data/master.xlsm".
Definition month : string := "data/month.xlsx".

(** A ledger with the six identity columns and the customer name, one
    data row, a filter over B1:D2 and two tables. *)
Definition ledger : @Worksheet runtime :=
  {| cells := cells (sheet_of_rows
       [ [VStr "MSISDN"; VStr "Purchase Date"; VStr "PRODUCT_NAME";
          VStr "PURCHASE_AMT"; VStr "CONTRACT_ID"; VStr "PRODUCT_ID";
          VStr "CUSTOMER_NAME"];
         [VStr "555"; VDate 1000000; VStr "Gold"; VNum 10%Z; VNum 7%Z;
          VNum 1%Z; VStr "Ann"] ]);
     auto_filter_ref := Some "B1:D2";
     tables := ["B1:D2"; "A3:C9"] |}.

(** A report of three rows under loosely spelled headers: the first row
    is the row of the ledger, the third repeats the second. *)
Definition report : @DataFrame runtime :=
  {| nrows := 3;
     cols :=
       [ ("Msisdn ", [VNum 555%Z; VNum 556%Z; VNum 556%Z]);
         ("Date", [VDate 1000200; VDate 5000000; VDate 5000000]);
         ("Prod  name", [VStr " Gold"; VStr "Silver"; VStr "Silver"]);
         ("Amount", [VStr "$10"; VStr "1,000"; VStr "1,000"]);
         ("CRTR ID", [VNum 7%Z; VNum 8%Z; VNum 8%Z]);
         ("Prod Code", [VNum 1%Z; VNum 2%Z; VNum 2%Z]);
         ("Unnamed: 7", [VNone; VNone; VNone]) ] |}.

Definition world : @World runtime := world_of ledger report.

(** A ledger whose headers match no target of the column map. *)
Definition foreign_ledger : @Worksheet runtime :=
  sheet_of_rows [ [VStr "Subscriber"; VStr "When"]; [VStr "555"; VStr "today"] ].

Definition foreign_world : @World runtime := world_of foreign_ledger report.

End Demo.

(** * Properties *)

(** ** Worksheets: bounds, used rows, header width *)

Section SheetFacts.
Context {R : PyRuntime}.
Implicit Types ws : Worksheet.

Lemma max_list_with_ge {A} (f : A → nat) (l : list A) (x : A) :
  x ∈ l → f x ≤ max_list_with f l.
Proof. induction 1; simpl; lia. Qed.

Lemma cell_in_bounds ws r c v :
  cells ws !! (r, c) = Some v → r ≤ max_row ws ∧ c ≤ max_column ws.
Proof.
  intros Hv.
  assert ((r, c) ∈ (1, 1) :: elements (dom (cells ws))) as Hin.
  { apply list_elem_of_further, elem_of_elements, elem_of_dom. eauto. }
  split.
  - apply (max_list_with_ge (λ k : nat * nat, k.1)) in Hin. exact Hin.
  - apply (max_list_with_ge (λ k : nat * nat, k.2)) in Hin. exact Hin.
Qed.

Lemma cell_value_bounds ws r c :
  cell_value ws r c ≠ VNone → r ≤ max_row ws ∧ c ≤ max_column ws.
Proof.
  unfold cell_value. destruct (cells ws !! (r, c)) eqn:E; [|done].
  intros _. eauto using cell_in_bounds.
Qed.

Lemma isna_false (v : value) : isna v = false ↔ v ≠ VNone.
Proof. destruct v; simpl; split; congruence. Qed.

Lemma isna_true (v : value) : isna v = true ↔ v = VNone.
Proof. destruct v; simpl; split; congruence. Qed.

Lemma row_has_value_true ws W r :
  row_has_value ws W r = true ↔ ∃ c, 1 ≤ c ≤ W ∧ cell_value ws r c ≠ VNone.
Proof.
  unfold row_has_value. rewrite existsb_exists. split.
  - intros (c & Hc%list_elem_of_In%elem_of_seq & Hv).
    exists c. split; [lia|]. apply isna_false. by destruct (isna _).
  - intros (c & Hc & Hv). exists c. split.
    + apply list_elem_of_In, elem_of_seq. lia.
    + apply isna_false in Hv. by rewrite Hv.
Qed.

Lemma row_has_value_false ws W r :
  row_has_value ws W r = false ↔ ∀ c, 1 ≤ c ≤ W → cell_value ws r c = VNone.
Proof.
  rewrite <-not_true_iff_false, row_has_value_true. split.
  - intros Hn c Hc. destruct (decide (cell_value ws r c = VNone)); [done|].
    destruct Hn; eauto.
  - intros Hall (c & Hc & Hv). auto.
Qed.

(** Two sheets with the same values in a row agree on whether it is used. *)
Lemma row_has_value_ext ws ws' W r :
  (∀ c, 1 ≤ c ≤ W → isna (cell_value ws' r c) = isna (cell_value ws r c)) →
  row_has_value ws' W r = row_has_value ws W r.
Proof.
  intros Hext. unfold row_has_value.
  induction (seq 1 W) as [|c cs IH] eqn:E in Hext |- *; [done|].
  assert (∀ c', c' ∈ seq 1 W → 1 ≤ c' ≤ W) as Hin
    by (intros c' ?%elem_of_seq; lia).
  clear IH. rewrite E in Hin. clear E.
  induction (c :: cs) as [|d ds IH]; [done|]. simpl.
  rewrite Hext by (apply Hin; left). f_equal. apply IH.
  intros c' Hc'. apply Hin. by right.
Qed.

(** The loop of [_last_used_row]. *)
Lemma last_loop_spec (p : nat → bool) (a n l0 : nat) :
  l0 < a →
  let L := foldl (λ last r, if p r then r else last) l0 (seq a n) in
  (L = l0 ∨ (a ≤ L < a + n ∧ p L = true)) ∧
  (∀ r, L < r → a ≤ r < a + n → p r = false).
Proof.
  intros Hl0. cbv zeta. induction n as [|n IH].
  - simpl. split; [by left|]. intros; lia.
  - rewrite seq_S, foldl_snoc. destruct IH as [IH1 IH2].
    destruct (p (a + n)) eqn:Hp.
    + split; [right; split; [lia|done]|]. intros; lia.
    + split.
      * destruct IH1 as [->|[? ?]]; [by left|right; split; [lia|done]].
      * intros r Hr Hr'. destruct (decide (r = a + n)) as [->|]; [done|].
        apply IH2; lia.
Qed.

Lemma header_row_elem ws c v :
  (c, v) ∈ header_row ws ↔ 1 ≤ c ≤ max_column ws ∧ v = cell_value ws 1 c.
Proof.
  unfold header_row. rewrite list_elem_of_fmap. split.
  - intros (c' & [= -> ->] & Hc%elem_of_seq). split; [lia|done].
  - intros [Hc ->]. exists c. split; [done|]. apply elem_of_seq. lia.
Qed.

Lemma header_cols_elem ws c :
  c ∈ header_cols ws ↔ 1 ≤ c ∧ cell_value ws 1 c ≠ VNone.
Proof.
  unfold header_cols. rewrite list_elem_of_fmap. split.
  - intros ([c' v] & -> & [Hna Hin%header_row_elem]%list_elem_of_filter).
    simpl in *. destruct Hin as [? ->]. split; [lia|]. by apply isna_false.
  - intros [Hc Hv]. exists (c, cell_value ws 1 c). split; [done|].
    apply list_elem_of_filter. split; [by apply isna_false|].
    apply header_row_elem. split; [|done].
    split; [done|]. by apply cell_value_bounds in Hv as [_ ?].
Qed.

Lemma header_width_unfold ws :
  header_width ws =
    match header_cols ws with [] => max_column ws | cs => max_list cs end.
Proof. reflexivity. Qed.

(** With a header in some column, the width is the last column that has one. *)
Lemma header_width_spec ws c0 :
  1 ≤ c0 → cell_value ws 1 c0 ≠ VNone →
  1 ≤ header_width ws ∧ cell_value ws 1 (header_width ws) ≠ VNone ∧
  ∀ c, 1 ≤ c → cell_value ws 1 c ≠ VNone → c ≤ header_width ws.
Proof.
  intros Hc0 Hv0. rewrite header_width_unfold.
  assert (c0 ∈ header_cols ws) as Hin by (by apply header_cols_elem).
  destruct (header_cols ws) as [|c1 cs] eqn:E; [by apply elem_of_nil in Hin|].
  rewrite <-E in *. clear Hin.
  assert (max_list (header_cols ws) ∈ header_cols ws) as Hmax.
  { apply max_list_elem_of. by rewrite E. }
  apply header_cols_elem in Hmax as [? ?]. split_and!; [done..|].
  intros c Hc Hv. apply max_list_elem_of_le, header_cols_elem. done.
Qed.

Lemma header_width_unique ws W :
  1 ≤ W → cell_value ws 1 W ≠ VNone →
  (∀ c, 1 ≤ c → cell_value ws 1 c ≠ VNone → c ≤ W) →
  header_width ws = W.
Proof.
  intros HW HvW Hmax.
  destruct (header_width_spec ws W HW HvW) as (H1 & H2 & H3).
  apply Nat.le_antisymm; [by apply Hmax|by apply H3].
Qed.

(** Sheets with the same header row have the same width, provided the
    header is not empty. *)
Lemma header_width_ext ws ws' c0 :
  1 ≤ c0 → cell_value ws 1 c0 ≠ VNone →
  (∀ c, cell_value ws' 1 c = cell_value ws 1 c) →
  header_width ws' = header_width ws.
Proof.
  intros Hc0 Hv0 Hext.
  destruct (header_width_spec ws c0 Hc0 Hv0) as (H1 & H2 & H3).
  apply header_width_unique; [done|by rewrite Hext|].
  intros c Hc. rewrite Hext. by apply H3.
Qed.

Lemma last_used_unfold ws :
  last_used ws =
    foldl (λ last r, if row_has_value ws (header_width ws) r then r else last)
          1 (seq 2 (max_row ws + 1 - 2)).
Proof. reflexivity. Qed.

(** The last used row: row 1 when there is no data, else a row that holds
    a value within the header width, and no row below it holds one. *)
Lemma last_used_spec ws :
  (last_used ws = 1 ∨
   (2 ≤ last_used ws ∧ row_has_value ws (header_width ws) (last_used ws) = true)) ∧
  (∀ r, last_used ws < r → row_has_value ws (header_width ws) r = false).
Proof.
  rewrite last_used_unfold.
  pose proof (last_loop_spec (row_has_value ws (header_width ws))
                2 (max_row ws + 1 - 2) 1 ltac:(lia)) as [H1 H2].
  simpl in H1, H2. split.
  - destruct H1 as [->|[? ?]]; [by left|right; split; [lia|done]].
  - intros r Hr.
    destruct (decide (r < 2 + (max_row ws + 1 - 2))) as [Hlt|Hge].
    + apply H2; [done|]. destruct H1 as [H1|[? ?]]; [rewrite H1 in Hr|]; lia.
    + apply row_has_value_false. intros c Hc.
      destruct (decide (cell_value ws r c = VNone)) as [|Hv]; [done|].
      apply cell_value_bounds in Hv as [? _]. lia.
Qed.

Lemma last_used_ge_1 ws : 1 ≤ last_used ws.
Proof. destruct (last_used_spec ws) as [[->|[? _]] _]; lia. Qed.

Lemma last_used_unique ws L :
  (L = 1 ∨ (2 ≤ L ∧ row_has_value ws (header_width ws) L = true)) →
  (∀ r, L < r → row_has_value ws (header_width ws) r = false) →
  last_used ws = L.
Proof.
  intros HL1 HL2. destruct (last_used_spec ws) as [H1 H2].
  destruct (Nat.lt_trichotomy (last_used ws) L) as [Hlt|[->|Hgt]]; [|done|].
  - destruct HL1 as [->|[_ HL]]; [pose proof (last_used_ge_1 ws); lia|].
    rewrite H2 in HL by done. done.
  - destruct H1 as [H1|[_ H1]]; [destruct HL1 as [->|[? _]]; lia|].
    rewrite HL2 in H1 by done. done.
Qed.

End SheetFacts.

(** ** The write loop *)

Section LoopFacts.
Context {R : PyRuntime}.
Implicit Types (ws : Worksheet) (df : DataFrame).

Lemma cell_value_set_cell ws r c v r' c' :
  cell_value (set_cell ws r c v) r' c' =
    if decide ((r, c) = (r', c'))
    then (if isna v then cell_value ws r c else v)
    else cell_value ws r' c'.
Proof.
  unfold cell_value, set_cell. cbn [cells].
  destruct (isna v) eqn:Hv.
  - destruct (cells ws !! (r, c)) eqn:E.
    + case_decide as Heq; [|done]. by rewrite <-Heq, E.
    + case_decide as Heq.
      * by rewrite <-Heq, lookup_insert_eq.
      * by rewrite lookup_insert_ne.
  - case_decide as Heq.
    + by rewrite <-Heq, lookup_insert_eq.
    + by rewrite lookup_insert_ne.
Qed.

Lemma cell_value_assign_cell ws r c v r' c' :
  cell_value (assign_cell ws r c v) r' c' =
    if decide ((r, c) = (r', c')) then v else cell_value ws r' c'.
Proof.
  unfold cell_value, assign_cell. cbn [cells]. case_decide as Heq.
  - by rewrite <-Heq, lookup_insert_eq.
  - by rewrite lookup_insert_ne.
Qed.

Lemma max_column_insert ws (cs : gmap (nat * nat) value) r c v :
  c ≤ max_column ws →
  max_list_with (λ k : nat * nat, k.2)
    ((1, 1) :: elements (dom (<[(r, c) := v]> (cells ws)))) = max_column ws.
Proof.
  intros Hc. unfold max_column in *. rewrite dom_insert_L.
  destruct (decide ((r, c) ∈ dom (cells ws))) as [Hin|Hnotin].
  - assert ({[(r, c)]} ∪ dom (cells ws) = dom (cells ws)) as -> by set_solver.
    done.
  - rewrite (elements_union_singleton _ _ Hnotin). simpl in *. lia.
Qed.

Lemma max_column_set_cell ws r c v :
  c ≤ max_column ws → max_column (set_cell ws r c v) = max_column ws.
Proof.
  intros Hc. unfold set_cell.
  destruct (isna v); [destruct (cells ws !! (r, c)); [done|]|];
    by apply (max_column_insert ws (cells ws)).
Qed.

Lemma max_column_assign_cell ws r c v :
  c ≤ max_column ws → max_column (assign_cell ws r c v) = max_column ws.
Proof. intros Hc. by apply (max_column_insert ws (cells ws)). Qed.

Lemma header_row_ext ws ws' :
  max_column ws' = max_column ws →
  (∀ c, cell_value ws' 1 c = cell_value ws 1 c) →
  header_row ws' = header_row ws.
Proof.
  intros Hm Hv. unfold header_row. rewrite Hm.
  apply list_fmap_ext. intros _ c _. by rewrite Hv.
Qed.

Lemma write_cells_snoc df resolved mc i target ws :
  write_cells df (resolved ++ [mc]) i target ws =
    let '(ws', any) := write_cells df resolved i target ws in
    let val := cell_to_write df i mc.1 in
    (set_cell ws' target mc.2 val, if isna val then any else true).
Proof.
  unfold write_cells. rewrite foldl_snoc.
  destruct (foldl _ _ resolved) as [ws' any]. by destruct mc.
Qed.

Lemma row_has_any_snoc df resolved mc i :
  row_has_any df (resolved ++ [mc]) i =
    if isna (cell_to_write df i mc.1) then row_has_any df resolved i else true.
Proof.
  unfold row_has_any. rewrite existsb_app. simpl.
  destruct (isna _), (existsb _ resolved); done.
Qed.

(** The inner loop: the flag it returns, the cells it may change, and the
    values it leaves in the target row. *)
Lemma write_cells_spec df resolved i target ws :
  let ws' := (write_cells df resolved i target ws).1 in
  (write_cells df resolved i target ws).2 = row_has_any df resolved i ∧
  auto_filter_ref ws' = auto_filter_ref ws ∧
  tables ws' = tables ws ∧
  (∀ r c, r ≠ target → cell_value ws' r c = cell_value ws r c) ∧
  (∀ c, c ∉ resolved.*2 → cell_value ws' target c = cell_value ws target c) ∧
  (∀ r c, cell_value ws r c ≠ VNone → cell_value ws' r c ≠ VNone) ∧
  (row_has_any df resolved i = false → ∀ r c, cell_value ws' r c = cell_value ws r c) ∧
  (NoDup resolved.*2 → ∀ m c, (m, c) ∈ resolved →
     cell_value ws' target c =
       if isna (cell_to_write df i m) then cell_value ws target c
       else cell_to_write df i m) ∧
  ((∀ c, c ∈ resolved.*2 → c ≤ max_column ws) → max_column ws' = max_column ws).
Proof.
  induction resolved as [|[m0 c0] resolved IH] using rev_ind.
  - simpl. split_and!; try done. intros _ m c Hin. by apply elem_of_nil in Hin.
  - rewrite write_cells_snoc, row_has_any_snoc.
    destruct (write_cells df resolved i target ws) as [ws1 any1] eqn:E.
    simpl in IH |- *. destruct IH as (I1 & I2 & I3 & I4 & I5 & I6 & I7 & I8 & I9).
    split_and!.
    + by rewrite I1.
    + done.
    + done.
    + intros r c Hr. rewrite cell_value_set_cell.
      case_decide as Heq; [inversion Heq; subst; done|]. by apply I4.
    + intros c Hc. rewrite fmap_app in Hc. simpl in Hc.
      rewrite cell_value_set_cell. case_decide as Heq.
      * inversion Heq; subst. destruct Hc. apply elem_of_app. right. by left.
      * apply I5. intros Hin. apply Hc. apply elem_of_app. by left.
    + intros r c Hv. rewrite cell_value_set_cell. case_decide as Heq.
      * inversion Heq; subst. destruct (isna _) eqn:Hna; [by apply I6|].
        by apply isna_false.
      * by apply I6.
    + destruct (isna (cell_to_write df i m0)) eqn:Hna; [|done].
      intros Hf r c. rewrite cell_value_set_cell, Hna.
      case_decide as Heq; [inversion Heq; subst|]; by apply I7.
    + rewrite fmap_app. simpl. intros (Hnd & Hnotin & _)%NoDup_app m c Hin.
      rewrite cell_value_set_cell.
      apply elem_of_app in Hin as [Hin|Hin%list_elem_of_singleton].
      * case_decide as Heq.
        { inversion Heq; subst. exfalso. apply (Hnotin c).
          - apply list_elem_of_fmap. by exists (m, c).
          - by left. }
        by apply I8.
      * inversion Hin; subst. rewrite decide_True by done.
        destruct (isna _) eqn:Hna; [|done].
        apply I5. intros Hc. apply (Hnotin c0); [done|by left].
    + intros Hcols.
      assert (max_column ws1 = max_column ws) as Hm.
      { apply I9. intros c Hc. apply Hcols. rewrite fmap_app. apply elem_of_app. by left. }
      rewrite max_column_set_cell; [done|]. rewrite Hm. apply Hcols.
      rewrite fmap_app. apply elem_of_app. right. by left.
Qed.

Lemma append_row_agree df resolved start st t i :
  agree st t →
  agree (append_row df resolved start st i) (trace_step df resolved t i).
Proof.
  intros (Hk & Hw & Hd). unfold append_row, trace_step. rewrite Hk.
  case_bool_decide.
  - split_and!; simpl; [done..|]. rewrite length_app. simpl. lia.
  - pose proof (write_cells_spec df resolved i (start + st_written st) (st_ws st))
      as (Hany & _).
    destruct (write_cells _ _ _ _ _) as [ws' any]. simpl in Hany. subst any.
    destruct (row_has_any df resolved i).
    + split_and!; simpl; [done| |done]. rewrite length_app. simpl. lia.
    + by split_and!.
Qed.

Lemma append_rows_agree df resolved start ws keys :
  agree (append_rows df resolved start ws keys) (trace df resolved keys).
Proof.
  unfold append_rows, trace, trace_from.
  assert (agree {| st_ws := ws; st_existing_keys := keys; st_written := 0;
                   st_duplicates_skipped := 0 |}
                {| tr_keys := keys; tr_accepted := []; tr_duplicates := [] |})
    as Hinit by done.
  revert Hinit. generalize (seq 0 (nrows df)).
  generalize {| st_ws := ws; st_existing_keys := keys; st_written := 0;
                st_duplicates_skipped := 0 |}.
  generalize {| tr_keys := keys; tr_accepted := []; tr_duplicates := [] |}.
  intros t st rows. revert t st.
  induction rows as [|i rows IH]; intros t st Hag; [done|].
  simpl. apply IH. by apply append_row_agree.
Qed.

Lemma append_row_inv df resolved start ws0 st t i :
  NoDup resolved.*2 →
  (∀ c, c ∈ resolved.*2 → c ≤ max_column ws0) →
  agree st t → SheetInv df resolved start ws0 st t →
  SheetInv df resolved start ws0
    (append_row df resolved start st i) (trace_step df resolved t i).
Proof.
  intros Hnd Hcols (Hk & Hw & Hd) [].
  unfold append_row, trace_step. rewrite Hk. case_bool_decide; [by split|].
  pose proof (write_cells_spec df resolved i (start + st_written st) (st_ws st))
    as (Hany & Hf & Ht & Hrow & Hcol & Hkept & Hnone & Hval & Hwidth).
  destruct (write_cells _ _ _ _ _) as [ws' any]. simpl in *. subst any.
  destruct (row_has_any df resolved i) eqn:Hhas.
  - split; simpl.
    + rewrite Hwidth; [done|]. intros c Hc. rewrite inv_width0. auto.
    + congruence.
    + congruence.
    + intros r c Hr. rewrite Hrow by lia. auto.
    + intros r c Hr. rewrite Hrow by lia. apply inv_below0. lia.
    + intros r c Hc. destruct (decide (r = start + st_written st)) as [->|Hne].
      * rewrite Hcol by done. auto.
      * rewrite Hrow by done. auto.
    + auto.
    + intros k j Hkj. apply lookup_app_Some in Hkj as [Hkj|[Hlen Hkj]].
      * destruct (inv_rows0 k j Hkj) as [? Hvals]. split; [done|].
        intros m c Hin. rewrite Hrow; [by apply Hvals|].
        apply lookup_lt_Some in Hkj. lia.
      * apply list_lookup_singleton_Some in Hkj as [Hk0 <-].
        assert (k = st_written st) as -> by lia.
        split; [done|]. intros m c Hin. rewrite (Hval Hnd m c Hin).
        by rewrite inv_below0 by lia.
  - split; simpl.
    + rewrite Hwidth; [done|]. intros c Hc. rewrite inv_width0. auto.
    + congruence.
    + congruence.
    + intros r c Hr. rewrite Hnone by done. auto.
    + intros r c Hr. rewrite Hnone by done. auto.
    + intros r c Hc. rewrite Hnone by done. auto.
    + auto.
    + intros k j Hkj. destruct (inv_rows0 k j Hkj) as [? Hvals]. split; [done|].
      intros m c Hin. rewrite Hnone by done. by apply Hvals.
Qed.

Lemma append_rows_inv df resolved start ws keys :
  NoDup resolved.*2 →
  (∀ c, c ∈ resolved.*2 → c ≤ max_column ws) →
  SheetInv df resolved start ws
    (append_rows df resolved start ws keys) (trace df resolved keys).
Proof.
  intros Hnd Hcols. unfold append_rows, trace, trace_from.
  set (st0 := {| st_ws := ws; st_existing_keys := keys; st_written := 0;
                 st_duplicates_skipped := 0 |}).
  set (t0 := {| tr_keys := keys; tr_accepted := []; tr_duplicates := [] |}).
  assert (agree st0 t0) as Hag by done.
  assert (SheetInv df resolved start ws st0 t0) as Hinv.
  { split; simpl; try done. }
  revert Hag Hinv. generalize (seq 0 (nrows df)). generalize st0 t0.
  intros st t rows. revert st t.
  induction rows as [|i rows IH]; intros st t Hag Hinv; [done|].
  simpl. apply IH; [by apply append_row_agree|by apply append_row_inv].
Qed.

End LoopFacts.

(** ** Header index and column resolution *)

Section HeaderFacts.
Context {R : PyRuntime}.
Implicit Types (ws : Worksheet) (df : DataFrame).

Lemma header_index_fold (l : list (nat * value)) (k : string) (c : nat) :
  foldl (λ (header_map : gmap string nat) '(col_idx, v),
           if isna v then header_map else <[_norm v := col_idx]> header_map)
        ∅ l !! k = Some c →
  ∃ v, (c, v) ∈ l ∧ isna v = false ∧ _norm v = k.
Proof.
  induction l as [|[c0 v0] l IH] using rev_ind; [simpl; by rewrite lookup_empty|].
  rewrite foldl_snoc. destruct (isna v0) eqn:Hna.
  - intros (v & Hin & ?)%IH. exists v. split; [|done]. apply elem_of_app. by left.
  - destruct (decide (_norm v0 = k)) as [<-|Hne].
    + rewrite lookup_insert_eq. intros [= <-]. exists v0. split; [|done].
      apply elem_of_app. right. by left.
    + rewrite lookup_insert_ne by done.
      intros (v & Hin & ?)%IH. exists v. split; [|done]. apply elem_of_app. by left.
Qed.

Lemma header_index_lookup ws k c :
  _build_apr_header_index ws !! k = Some c →
  1 ≤ c ≤ max_column ws ∧ cell_value ws 1 c ≠ VNone ∧ _norm (cell_value ws 1 c) = k.
Proof.
  intros (v & [Hc ->]%header_row_elem & Hna & Hk)%header_index_fold.
  split_and!; [lia..| |done]. by apply isna_false.
Qed.

Lemma resolve_target_col_Some (hm : gmap string nat) candidates c :
  _resolve_target_col hm candidates = Some c →
  ∃ name, name ∈ candidates ∧ hm !! _norm (VStr name) = Some c.
Proof.
  induction candidates as [|name rest IH]; [done|]. simpl.
  destruct (hm !! _norm (VStr name)) eqn:E.
  - intros [= ->]. exists name. split; [by left|done].
  - intros (n & Hin & ?)%IH. exists n. split; [by right|done].
Qed.

Lemma resolve_fold_fields df hm (l : list (string * list string)) acc :
  res_resolved_map (foldl (resolve_step df hm) acc l) =
    res_resolved_map acc ++ omap (resolve_entry df hm) l ∧
  res_missing_monthly (foldl (resolve_step df hm) acc l) =
    res_missing_monthly acc ++ filter (λ c, has_column df c = false) l.*1 ∧
  res_skipped_targets (foldl (resolve_step df hm) acc l) =
    res_skipped_targets acc ++
    filter (λ e : string * list string,
              has_column df e.1 = true ∧ _resolve_target_col hm e.2 = None) l.
Proof.
  revert acc. induction l as [|[m ts] l IH]; intros acc.
  - simpl. by rewrite !app_nil_r.
  - cbn [foldl]. destruct (IH (resolve_step df hm acc (m, ts))) as (-> & -> & ->).
    unfold resolve_step, resolve_entry.
    cbn [omap list_omap fmap list_fmap fst snd].
    rewrite !filter_cons. cbn [fst snd].
    destruct (has_column df m) eqn:Hm; cbn [negb].
    + destruct (_resolve_target_col hm ts) eqn:Hr; simpl;
        repeat case_decide; try naive_solver; by rewrite <-?app_assoc.
    + simpl. repeat case_decide; try naive_solver; by rewrite <-?app_assoc.
Qed.

Lemma resolve_columns_fields df hm :
  res_resolved_map (resolve_columns df hm) = omap (resolve_entry df hm) COLUMN_MAP ∧
  res_missing_monthly (resolve_columns df hm) =
    filter (λ c, has_column df c = false) COLUMN_MAP.*1 ∧
  res_skipped_targets (resolve_columns df hm) =
    filter (λ e : string * list string,
              has_column df e.1 = true ∧ _resolve_target_col hm e.2 = None) COLUMN_MAP.
Proof. apply resolve_fold_fields. Qed.

Lemma resolved_of_omap ws df :
  resolved_of ws df = omap (resolve_entry df (_build_apr_header_index ws)) COLUMN_MAP.
Proof. unfold resolved_of. apply resolve_columns_fields. Qed.

Lemma resolved_of_elem ws df m c :
  (m, c) ∈ resolved_of ws df ↔
  ∃ ts, (m, ts) ∈ COLUMN_MAP ∧ has_column df m = true ∧
        _resolve_target_col (_build_apr_header_index ws) ts = Some c.
Proof.
  unfold resolved_of.
  destruct (resolve_columns_fields df (_build_apr_header_index ws)) as [-> _].
  rewrite list_elem_of_omap. unfold resolve_entry. split.
  - intros ([m' ts] & Hin & Hres). simpl in Hres.
    destruct (has_column df m') eqn:Hm; [|done].
    destruct (_resolve_target_col _ ts) eqn:Hr; [|done].
    simpl in Hres. inversion Hres; subst. eauto.
  - intros (ts & Hin & Hm & Hr). exists (m, ts). split; [done|].
    simpl. by rewrite Hm, Hr.
Qed.

Lemma target_norms_elem m ts n :
  (m, ts) ∈ COLUMN_MAP → n ∈ ts → (_norm (VStr n), m) ∈ target_norms.
Proof.
  intros Hin Hn. unfold target_norms. apply list_elem_of_bind.
  exists (m, ts). split; [|done]. apply list_elem_of_fmap. by exists n.
Qed.

Lemma target_norms_functional :
  Forall (λ p : string * string,
            Forall (λ q : string * string, p.1 = q.1 → p.2 = q.2) target_norms)
         target_norms.
Proof. refine (bool_decide_unpack _ _). by vm_compute. Qed.

(** Different monthly labels never share a target spelling. *)
Lemma column_map_targets_inj m1 ts1 n1 m2 ts2 n2 :
  (m1, ts1) ∈ COLUMN_MAP → n1 ∈ ts1 →
  (m2, ts2) ∈ COLUMN_MAP → n2 ∈ ts2 →
  _norm (VStr n1) = _norm (VStr n2) → m1 = m2.
Proof.
  intros H1 Hn1 H2 Hn2 Hnorm.
  pose proof (target_norms_elem _ _ _ H1 Hn1) as E1.
  pose proof (target_norms_elem _ _ _ H2 Hn2) as E2.
  pose proof target_norms_functional as HF.
  rewrite Forall_forall in HF. specialize (HF _ E1).
  rewrite Forall_forall in HF. by apply (HF _ E2).
Qed.

Lemma NoDup_snd_of_fst {A B} (l : list (A * B)) :
  NoDup l.*1 →
  (∀ x y, x ∈ l → y ∈ l → x.2 = y.2 → x.1 = y.1) →
  NoDup l.*2.
Proof.
  induction l as [|x l IH]; simpl; [constructor|].
  intros [Hx Hnd]%NoDup_cons Hinj. apply NoDup_cons. split.
  - intros (y & Hy2 & Hy)%list_elem_of_fmap. apply Hx.
    apply list_elem_of_fmap. exists y. split; [|done].
    apply Hinj; [by left|by right|done].
  - apply IH; [done|]. intros y z Hy Hz. apply Hinj; by right.
Qed.

Lemma NoDup_omap_fst {A B C} (g : A * B → option (A * C)) (l : list (A * B)) :
  (∀ x y, g x = Some y → y.1 = x.1) → NoDup l.*1 → NoDup (omap g l).*1.
Proof.
  intros Hg. induction l as [|x l IH]; simpl; [constructor|].
  intros [Hx Hnd]%NoDup_cons. destruct (g x) as [y|] eqn:E; [|by apply IH].
  simpl. apply NoDup_cons. split; [|by apply IH].
  intros (z & Hz1 & (x' & Hx' & Hgx')%list_elem_of_omap)%list_elem_of_fmap.
  apply Hx. apply list_elem_of_fmap. exists x'. split; [|done].
  rewrite <-(Hg _ _ E), <-(Hg _ _ Hgx'). done.
Qed.

Lemma resolved_of_NoDup_labels ws df : NoDup (resolved_of ws df).*1.
Proof.
  unfold resolved_of.
  destruct (resolve_columns_fields df (_build_apr_header_index ws)) as [-> _].
  apply NoDup_omap_fst.
  - intros [m ts] y. unfold resolve_entry. simpl.
    destruct (has_column df m); [|done].
    destruct (_resolve_target_col _ ts); [|done]. by intros [= <-].
  - unfold COLUMN_MAP. simpl. refine (bool_decide_unpack _ _). by vm_compute.
Qed.

Lemma resolved_of_NoDup ws df : NoDup (resolved_of ws df).*2.
Proof.
  apply NoDup_snd_of_fst; [apply resolved_of_NoDup_labels|].
  intros [m1 c1] [m2 c2] (ts1 & Hin1 & _ & Hr1)%resolved_of_elem
         (ts2 & Hin2 & _ & Hr2)%resolved_of_elem. simpl. intros <-.
  apply resolve_target_col_Some in Hr1 as (n1 & Hn1 & Hl1).
  apply resolve_target_col_Some in Hr2 as (n2 & Hn2 & Hl2).
  apply header_index_lookup in Hl1 as (_ & _ & Hk1).
  apply header_index_lookup in Hl2 as (_ & _ & Hk2).
  eapply column_map_targets_inj; [exact Hin1|exact Hn1|exact Hin2|exact Hn2|].
  congruence.
Qed.

(** A resolved column carries a header, so it lies within the header width. *)
Lemma resolved_of_bounds ws df m c :
  (m, c) ∈ resolved_of ws df →
  1 ≤ c ≤ header_width ws ∧ c ≤ max_column ws ∧ cell_value ws 1 c ≠ VNone.
Proof.
  intros (ts & _ & _ & Hr)%resolved_of_elem.
  apply resolve_target_col_Some in Hr as (n & _ & Hl).
  apply header_index_lookup in Hl as (Hc & Hv & _).
  destruct (header_width_spec ws c ltac:(lia) Hv) as (_ & _ & Hmax).
  split_and!; [lia|by apply Hmax; [lia|]|lia|done].
Qed.

End HeaderFacts.

(** ** One run, step by step *)

(** Unfolds the plumbing of [io]. *)
Ltac io_unfold :=
  repeat progress
    (unfold mbind, io_bind, mret, io_ret, get_world, put_fs, raise, lift;
     cbn beta iota).

Section RunFacts.
Context {R : PyRuntime}.
Implicit Types (ws : Worksheet) (df : DataFrame) (w : World).

Lemma backup_master_eq w master fm :
  fs w !! master = Some fm →
  _backup_master master w =
    ({| fs := <[backup_path_of master (clock w) := fm]> (fs w); clock := clock w |},
     inr (backup_path_of master (clock w))).
Proof.
  intros Hfm. unfold _backup_master, backup_path_of.
  destruct (path_splitext (path_basename master)) as [name ext].
  unfold _timestamp, copy2. io_unfold. rewrite Hfm. done.
Qed.

Lemma io_bind_inr {A B} (m : io A) (f : A → io B) w w' x :
  m w = (w', inr x) → (m ≫= f) w = f x w'.
Proof. intros H. unfold mbind, io_bind. by rewrite H. Qed.

Lemma io_bind_inl {A B} (m : io A) (f : A → io B) w w' e :
  m w = (w', inl e) → (m ≫= f) w = (w', inl e).
Proof. intros H. unfold mbind, io_bind. by rewrite H. Qed.

Lemma isfile_true w path f : fs w !! path = Some f → isfile w path = true.
Proof. intros H. unfold isfile. rewrite H. by apply bool_decide_eq_true_2. Qed.

Lemma read_month_file_eq w month df :
  monthly_frame w month = Some df → _read_month_file month w = (w, inr df).
Proof.
  unfold monthly_frame, _read_month_file. intros H.
  erewrite io_bind_inr by reflexivity.
  destruct (fs w !! month ≫= df_view) as [raw|]; [|done].
  destruct (_normalize_columns raw) as [e|df0] eqn:Hn; [done|].
  erewrite io_bind_inr by (unfold lift; reflexivity).
  apply (inj Some) in H. by rewrite H.
Qed.

Lemma load_workbook_eq w master fm wb :
  fs w !! master = Some fm → wb_view fm = Some wb →
  load_workbook master w = (w, inr wb).
Proof.
  intros Hfm Hwb. unfold load_workbook.
  erewrite io_bind_inr by reflexivity. rewrite Hfm. simpl. by rewrite Hwb.
Qed.

Lemma monthly_frame_isfile w month df :
  monthly_frame w month = Some df → ∃ f, fs w !! month = Some f.
Proof.
  unfold monthly_frame. destruct (fs w !! month) as [f|]; [eauto|done].
Qed.

(** A run on a world in which both files are present and readable. *)
Lemma ingest_eq w master month fm wb ws df :
  fs w !! master = Some fm → wb_view fm = Some wb → wb !! APR_SHEET = Some ws →
  monthly_frame w month = Some df →
  let bp := backup_path_of master (clock w) in
  let o := outcome master bp ws df in
  ingest_month_into_apr_bundle master month w =
    ({| fs := fs_after (fs w) master bp fm wb o.1; clock := clock w |}, o.2).
Proof.
  intros Hfm Hwb Hws Hdf bp o.
  destruct (monthly_frame_isfile _ _ _ Hdf) as [fmth Hmonth].
  unfold ingest_month_into_apr_bundle.
  erewrite io_bind_inr by reflexivity.
  rewrite (isfile_true _ _ _ Hfm), (isfile_true _ _ _ Hmonth). cbn [negb].
  erewrite io_bind_inr by (by apply read_month_file_eq).
  erewrite io_bind_inr by (by eapply load_workbook_eq).
  rewrite Hws.
  destruct (_last_used_row ws 2 None) as [l hw] eqn:Hlast.
  assert (l = last_used ws) as -> by (unfold last_used; by rewrite Hlast).
  erewrite io_bind_inr by (by apply backup_master_eq).
  subst o. unfold outcome, fs_after, final_sheet, loop_of, resolved_of.
  destruct (res_resolved_map (resolve_columns _ _)) as [|mc resolved] eqn:Hres;
    [done|].
  destruct (_expand_filters_and_tables _) as [e|ws1] eqn:Hexp.
  { by erewrite io_bind_inl by (unfold lift; reflexivity). }
  erewrite io_bind_inr by (unfold lift; reflexivity).
  erewrite io_bind_inr by (unfold save; erewrite io_bind_inr by reflexivity;
                           reflexivity).
  destruct (_last_used_row (_normalize_purchase_date_column ws1) 2 None)
    as [l' hw'] eqn:Hlast'.
  assert (l' = last_used (_normalize_purchase_date_column ws1)) as ->
    by (unfold last_used; by rewrite Hlast').
  destruct (column_letters_of (mc :: resolved)) as [e|letters].
  { by erewrite io_bind_inl by (unfold lift; reflexivity). }
  by erewrite io_bind_inr by (unfold lift; reflexivity).
Qed.

End RunFacts.

(** ** After the loop: ranges and the date column *)

Section FinalizeFacts.
Context {R : PyRuntime}.
Implicit Types (ws : Worksheet) (df : DataFrame).

Lemma find_header_Some target (row : list (nat * value)) c :
  find_header target row = Some c →
  ∃ v, (c, v) ∈ row ∧ isna v = false ∧ _norm v = target.
Proof.
  induction row as [|[c0 v0] row IH]; [done|]. simpl.
  destruct (isna v0) eqn:Hna.
  - intros (v & ? & ?)%IH. exists v. split; [by right|done].
  - case_bool_decide as Hn.
    + intros [= ->]. exists v0. split; [by left|done].
    + intros (v & ? & ?)%IH. exists v. split; [by right|done].
Qed.

Lemma find_header_col_Some ws f c :
  _find_header_col ws f = Some c →
  1 ≤ c ≤ max_column ws ∧ cell_value ws 1 c ≠ VNone ∧
  _norm (cell_value ws 1 c) = _norm (VStr f).
Proof.
  intros (v & [Hc ->]%header_row_elem & Hna & Hn)%find_header_Some.
  split_and!; [lia..| |done]. by apply isna_false.
Qed.

Lemma expand_eq ws :
  _expand_filters_and_tables ws =
    match get_column_letter (header_width ws) with
    | None => inl ValueError
    | Some end_col_letter =>
        inr {| cells := cells ws;
               auto_filter_ref :=
                 match auto_filter_ref ws with
                 | Some EmptyString => Some EmptyString
                 | Some _ =>
                     Some ("A1:" +:+ end_col_letter +:+ PyStr.str_nat (last_used ws))
                 | None => None
                 end;
               tables := expand_table_ref (last_used ws) <$> tables ws |}
    end.
Proof.
  unfold _expand_filters_and_tables, header_width, last_used.
  by destruct (_last_used_row ws 2 None).
Qed.

Lemma expand_cells ws ws' :
  _expand_filters_and_tables ws = inr ws' → cells ws' = cells ws.
Proof.
  unfold _expand_filters_and_tables.
  destruct (_last_used_row ws 2 None) as [l c].
  destruct (get_column_letter c); [|done]. by intros [= <-].
Qed.

Lemma expand_cell_value ws ws' r c :
  _expand_filters_and_tables ws = inr ws' → cell_value ws' r c = cell_value ws r c.
Proof. intros H%expand_cells. unfold cell_value. by rewrite H. Qed.

Lemma expand_max_column ws ws' :
  _expand_filters_and_tables ws = inr ws' → max_column ws' = max_column ws.
Proof. intros H%expand_cells. unfold max_column. by rewrite H. Qed.

Lemma normalized_date_isna v : isna (normalized_date v) = isna v.
Proof.
  destruct v; simpl; try done; by destruct (datetime_of_str _).
Qed.

Lemma normalize_date_cell_value col ws r r' c' :
  cell_value (normalize_date_cell col ws r) r' c' =
    if decide ((r, col) = (r', c')) then normalized_date (cell_value ws r col)
    else cell_value ws r' c'.
Proof.
  unfold normalize_date_cell, normalized_date.
  destruct (cell_value ws r col) eqn:E; simpl.
  - case_decide as Heq; [|done]. by rewrite <-E; inversion Heq.
  - destruct (datetime_of_str s).
    + by rewrite cell_value_assign_cell.
    + case_decide as Heq; [|done]. by rewrite <-E; inversion Heq.
  - destruct (datetime_of_str (str_num x)).
    + by rewrite cell_value_assign_cell.
    + case_decide as Heq; [|done]. by rewrite <-E; inversion Heq.
  - case_decide as Heq; [|done]. by rewrite <-E; inversion Heq.
Qed.

Lemma normalize_date_cell_meta col ws r :
  col ≤ max_column ws →
  max_column (normalize_date_cell col ws r) = max_column ws ∧
  auto_filter_ref (normalize_date_cell col ws r) = auto_filter_ref ws ∧
  tables (normalize_date_cell col ws r) = tables ws.
Proof.
  intros Hc. unfold normalize_date_cell.
  destruct (cell_value ws r col); try done;
    destruct (datetime_of_str _); try done;
    (split; [by apply max_column_assign_cell|done]).
Qed.

Lemma normalize_fold col ws a n :
  col ≤ max_column ws →
  let ws' := foldl (normalize_date_cell col) ws (seq a n) in
  (∀ r c, cell_value ws' r c =
     if decide (c = col ∧ a ≤ r < a + n) then normalized_date (cell_value ws r c)
     else cell_value ws r c) ∧
  max_column ws' = max_column ws ∧
  auto_filter_ref ws' = auto_filter_ref ws ∧
  tables ws' = tables ws.
Proof.
  intros Hc. cbv zeta. induction n as [|n IH].
  - simpl. split_and!; try done. intros r c. rewrite decide_False by lia. done.
  - rewrite seq_S, foldl_snoc. destruct IH as (IH1 & IH2 & IH3 & IH4).
    destruct (normalize_date_cell_meta col (foldl (normalize_date_cell col) ws (seq a n))
                (a + n) ltac:(by rewrite IH2)) as (M1 & M2 & M3).
    split_and!; [|congruence..].
    intros r c. rewrite normalize_date_cell_value, !IH1.
    case_decide as Heq.
    + inversion Heq; subst. rewrite decide_False by lia.
      rewrite decide_True by (split; [done|lia]). done.
    + case_decide as H1.
      * rewrite decide_True; [done|]. split; [tauto|lia].
      * rewrite decide_False; [done|]. intros [-> Hr]. apply H1.
        split; [done|]. destruct (decide (r = a + n)) as [->|]; [done|lia].
Qed.

(** The date column after the normalisation, cell by cell. *)
Lemma normalize_spec ws :
  let ws' := _normalize_purchase_date_column ws in
  (∀ r c, cell_value ws' r c =
     if decide (_find_header_col ws "Purchase Date" = Some c ∧ 2 ≤ r ≤ last_used ws)
     then normalized_date (cell_value ws r c)
     else cell_value ws r c) ∧
  max_column ws' = max_column ws ∧
  auto_filter_ref ws' = auto_filter_ref ws ∧
  tables ws' = tables ws.
Proof.
  cbv zeta. unfold _normalize_purchase_date_column.
  destruct (_find_header_col ws "Purchase Date") as [col|] eqn:Hcol.
  - apply find_header_col_Some in Hcol as Hb. destruct Hb as ([_ Hle] & _ & _).
    destruct (_last_used_row ws 2 None) as [l hw] eqn:Hl.
    assert (l = last_used ws) as -> by (unfold last_used; by rewrite Hl).
    destruct (normalize_fold col ws 2 (last_used ws + 1 - 2) Hle)
      as (H1 & H2 & H3 & H4).
    split_and!; [|done..]. intros r c. rewrite H1.
    pose proof (last_used_ge_1 ws).
    case_decide as Ha; case_decide as Hb; try done.
    * destruct Hb. destruct Ha as [-> ?]. split; [done|lia].
    * destruct Ha. destruct Hb as [[= ->] ?]. split; [done|lia].
  - by split_and!.
Qed.

Lemma normalize_isna ws r c :
  isna (cell_value (_normalize_purchase_date_column ws) r c) = isna (cell_value ws r c).
Proof.
  destruct (normalize_spec ws) as (H & _). rewrite H.
  case_decide; [apply normalized_date_isna|done].
Qed.

Lemma normalize_header ws c :
  cell_value (_normalize_purchase_date_column ws) 1 c = cell_value ws 1 c.
Proof.
  destruct (normalize_spec ws) as (H & _). rewrite H.
  rewrite decide_False; [done|]. intros [_ ?]. lia.
Qed.

(** Sheets that agree on the header row and on which cells are empty
    have the same width and the same last used row. *)
Lemma used_rows_ext ws ws' :
  max_column ws' = max_column ws →
  (∀ c, cell_value ws' 1 c = cell_value ws 1 c) →
  (∀ r c, isna (cell_value ws' r c) = isna (cell_value ws r c)) →
  header_row ws' = header_row ws ∧
  header_width ws' = header_width ws ∧ last_used ws' = last_used ws.
Proof.
  intros Hm Hh Hna.
  assert (header_row ws' = header_row ws) as Hrow by by apply header_row_ext.
  assert (header_width ws' = header_width ws) as Hw.
  { rewrite !header_width_unfold. unfold header_cols. by rewrite Hrow, Hm. }
  split_and!; [done..|].
  destruct (last_used_spec ws) as [H1 H2].
  apply last_used_unique; rewrite Hw.
  - destruct H1 as [?|[? H1]]; [by left|right]. split; [done|].
    rewrite <-H1. apply row_has_value_ext. auto.
  - intros r Hr. rewrite <-(H2 r Hr). apply row_has_value_ext. auto.
Qed.

Lemma normalize_used_rows ws :
  header_row (_normalize_purchase_date_column ws) = header_row ws ∧
  header_width (_normalize_purchase_date_column ws) = header_width ws ∧
  last_used (_normalize_purchase_date_column ws) = last_used ws.
Proof.
  apply used_rows_ext.
  - by destruct (normalize_spec ws) as (_ & ? & _).
  - apply normalize_header.
  - apply normalize_isna.
Qed.

Lemma expand_used_rows ws ws' :
  _expand_filters_and_tables ws = inr ws' →
  header_row ws' = header_row ws ∧
  header_width ws' = header_width ws ∧ last_used ws' = last_used ws.
Proof.
  intros H. apply used_rows_ext.
  - by apply expand_max_column.
  - intros c. by apply expand_cell_value.
  - intros r c. by rewrite (expand_cell_value _ _ _ _ H).
Qed.

End FinalizeFacts.

(** ** What a run does to the used rows *)

(** Projects the fields of a result record. *)
Ltac result_simpl :=
  cbn [master_backup updated_master sheet rows_before rows_added rows_after
       dedupe_skipped unmapped_monthly_columns unresolved_targets resolved_map
       fst snd].

Section UsedRows.
Context {R : PyRuntime}.
Implicit Types (ws : Worksheet) (df : DataFrame) (w : World).

Lemma resolved_cols_le_max ws df c :
  c ∈ (resolved_of ws df).*2 → c ≤ max_column ws.
Proof.
  intros ([m c'] & -> & Hin)%list_elem_of_fmap.
  by apply resolved_of_bounds in Hin as (_ & ? & _).
Qed.

Lemma loop_of_inv ws df :
  SheetInv df (resolved_of ws df) (last_used ws + 1) ws
    (loop_of ws df) (trace df (resolved_of ws df) (_read_existing_keys ws)).
Proof.
  apply append_rows_inv; [apply resolved_of_NoDup|apply resolved_cols_le_max].
Qed.

Lemma loop_of_agree ws df :
  agree (loop_of ws df) (trace df (resolved_of ws df) (_read_existing_keys ws)).
Proof. apply append_rows_agree. Qed.

Lemma row_has_any_true df resolved i :
  row_has_any df resolved i = true ↔
  ∃ m c, (m, c) ∈ resolved ∧ cell_to_write df i m ≠ VNone.
Proof.
  unfold row_has_any. rewrite existsb_exists. split.
  - intros ([m c] & Hin%list_elem_of_In & Hv). exists m, c. split; [done|].
    apply isna_false. simpl in Hv. by destruct (isna _).
  - intros (m & c & Hin & Hv). exists (m, c). split; [by apply list_elem_of_In|].
    apply isna_false in Hv. simpl. by rewrite Hv.
Qed.

(** The loop keeps the header row and moves the last used row down by the
    number of rows it has written. *)
Lemma loop_used_rows ws df :
  header_row (st_ws (loop_of ws df)) = header_row ws ∧
  header_width (st_ws (loop_of ws df)) = header_width ws ∧
  last_used (st_ws (loop_of ws df)) = last_used ws + st_written (loop_of ws df).
Proof.
  pose proof (loop_of_inv ws df) as Hinv. pose proof (loop_of_agree ws df) as Hag.
  destruct Hinv. destruct Hag as (_ & Hw & _).
  pose proof (last_used_ge_1 ws) as HL.
  assert (header_row (st_ws (loop_of ws df)) = header_row ws) as Hrow.
  { apply header_row_ext; [done|]. intros c. apply inv_above0. lia. }
  assert (header_width (st_ws (loop_of ws df)) = header_width ws) as Hwd.
  { rewrite !header_width_unfold. unfold header_cols. by rewrite Hrow, inv_width0. }
  split_and!; [done..|].
  destruct (last_used_spec ws) as [H1 H2].
  apply last_used_unique; rewrite Hwd.
  - destruct (st_written (loop_of ws df)) as [|k] eqn:Ek.
    + rewrite Nat.add_0_r. destruct H1 as [?|[? H1]]; [by left|right].
      split; [done|]. rewrite <-H1. apply row_has_value_ext.
      intros c _. rewrite inv_above0 by lia. done.
    + right. split; [lia|].
      destruct (lookup_lt_is_Some_2
                  (tr_accepted (trace df (resolved_of ws df) (_read_existing_keys ws))) k)
        as [i Hi]; [lia|].
      destruct (inv_rows0 k i Hi) as [Hany Hvals].
      apply row_has_any_true in Hany as (m & c & Hin & Hv).
      apply row_has_value_true. exists c.
      apply resolved_of_bounds in Hin as Hb. destruct Hb as (Hc & _ & _).
      split; [done|].
      replace (last_used ws + S k) with (last_used ws + 1 + k) by lia.
      rewrite (Hvals m c Hin). apply isna_false in Hv. rewrite Hv. by apply isna_false.
  - intros r Hr. rewrite <-(H2 r ltac:(lia)). apply row_has_value_ext.
    intros c _. rewrite inv_below0 by lia. done.
Qed.

(** The sheet that a run saves: same header, last used row moved down by
    the number of rows written. *)
Lemma final_sheet_used_rows ws df ws' :
  final_sheet ws df = inr ws' →
  header_row ws' = header_row ws ∧
  header_width ws' = header_width ws ∧
  last_used ws' = last_used ws + st_written (loop_of ws df).
Proof.
  unfold final_sheet.
  destruct (_expand_filters_and_tables _) as [e|ws1] eqn:Hexp; [done|].
  intros [= <-].
  destruct (normalize_used_rows ws1) as (N1 & N2 & N3).
  destruct (expand_used_rows _ _ Hexp) as (E1 & E2 & E3).
  destruct (loop_used_rows ws df) as (L1 & L2 & L3).
  split_and!; congruence.
Qed.

(** A run that returns has found both files, the sheet and a frame. *)
Lemma ingest_inr_inv w master month w' res :
  ingest_month_into_apr_bundle master month w = (w', inr res) →
  ∃ fm wb ws df,
    fs w !! master = Some fm ∧ wb_view fm = Some wb ∧ wb !! APR_SHEET = Some ws ∧
    monthly_frame w month = Some df.
Proof.
  unfold ingest_month_into_apr_bundle.
  erewrite io_bind_inr by reflexivity. unfold isfile.
  destruct (fs w !! master) as [fm|] eqn:Hfm; last first.
  { rewrite bool_decide_eq_false_2 by (by intros [? ?]). done. }
  rewrite bool_decide_eq_true_2 by eauto. cbn [negb].
  destruct (fs w !! month) as [fmth|] eqn:Hmonth; last first.
  { rewrite bool_decide_eq_false_2 by (by intros [? ?]). done. }
  rewrite bool_decide_eq_true_2 by eauto. cbn [negb].
  destruct (monthly_frame w month) as [df|] eqn:Hdf; last first.
  { assert (∃ e, _read_month_file month w = (w, inl e)) as [e He].
    { unfold monthly_frame, _read_month_file in *.
      erewrite io_bind_inr by reflexivity. rewrite Hmonth in *. simpl in *.
      destruct (df_view fmth) as [raw|]; [|by eexists].
      destruct (_normalize_columns raw) as [e|df0] eqn:Hn; [|done].
      exists e. by erewrite io_bind_inl by (unfold lift; reflexivity). }
    by erewrite io_bind_inl by exact He. }
  erewrite io_bind_inr by (by apply read_month_file_eq).
  destruct (wb_view fm) as [wb|] eqn:Hwb; last first.
  { assert (load_workbook master w = (w, inl InvalidFileException)) as He.
    { unfold load_workbook. erewrite io_bind_inr by reflexivity.
      rewrite Hfm. simpl. by rewrite Hwb. }
    by erewrite io_bind_inl by exact He. }
  erewrite io_bind_inr by (by eapply load_workbook_eq).
  destruct (wb !! APR_SHEET) as [ws|] eqn:Hws; [|done].
  intros _. by exists fm, wb, ws, df.
Qed.

(** The two ways in which a run returns. *)
Lemma outcome_inr master bp ws df res :
  (outcome master bp ws df).2 = inr res →
  master_backup res = bp ∧ updated_master res = master ∧ sheet res = APR_SHEET ∧
  rows_before res = last_used ws - 1 ∧
  unresolved_targets res =
    res_skipped_targets (resolve_columns df (_build_apr_header_index ws)) ∧
  unmapped_monthly_columns res = filter (λ c, has_column df c = false) COLUMN_MAP.*1 ∧
  ((resolved_of ws df = [] ∧ (outcome master bp ws df).1 = None ∧
    rows_added res = 0 ∧ rows_after res = rows_before res ∧
    dedupe_skipped res = None ∧ resolved_map res = []) ∨
   (resolved_of ws df ≠ [] ∧
    ∃ ws', final_sheet ws df = inr ws' ∧ (outcome master bp ws df).1 = Some ws' ∧
      rows_added res = st_written (loop_of ws df) ∧
      rows_after res = last_used ws' - 1 ∧
      dedupe_skipped res = Some (st_duplicates_skipped (loop_of ws df)) ∧
      column_letters_of (resolved_of ws df) = inr (resolved_map res))).
Proof.
  unfold outcome, resolved_of. cbv zeta.
  destruct (resolve_columns_fields df (_build_apr_header_index ws)) as (_ & Hmiss & _).
  destruct (res_resolved_map (resolve_columns df (_build_apr_header_index ws)))
    as [|mc l] eqn:Hres.
  - cbn [fst snd]. intros [= <-]. result_simpl. rewrite ?Nat.max_0_l.
    split_and!; try done. by left.
  - destruct (final_sheet ws df) as [e|ws'] eqn:Hfin; [done|]. cbn [fst snd].
    destruct (column_letters_of (mc :: l)) as [e|letters] eqn:Hlet; [done|].
    intros [= <-]. result_simpl. rewrite ?Nat.max_0_l.
    split_and!; try done. right. split; [done|].
    exists ws'. by split_and!.
Qed.

Lemma get_column_letter_is_Some c :
  1 ≤ c → (N.of_nat c ≤ 18278)%N → is_Some (get_column_letter c).
Proof.
  intros H1 H2. unfold get_column_letter.
  assert ((1 <=? c) = true) as -> by (apply Nat.leb_le; lia).
  assert ((N.of_nat c <=? 18278)%N = true) as -> by (apply N.leb_le; lia).
  simpl. eauto.
Qed.

Lemma get_column_letter_Some_bounds c l :
  get_column_letter c = Some l → 1 ≤ c ∧ (N.of_nat c ≤ 18278)%N.
Proof.
  unfold get_column_letter.
  destruct (1 <=? c) eqn:H1; [|done].
  destruct (N.of_nat c <=? 18278)%N eqn:H2; [|done].
  intros _. split; [by apply Nat.leb_le|by apply N.leb_le].
Qed.

Lemma column_letters_of_inr (resolved : list (string * nat)) :
  (∀ m c, (m, c) ∈ resolved → is_Some (get_column_letter c)) →
  ∃ letters, column_letters_of resolved = inr letters.
Proof.
  induction resolved as [|[m c] l IH]; intros H; [by eexists|].
  simpl. destruct (H m c) as [x ->]; [by left|].
  destruct IH as [ls ->]; [|by eexists].
  intros m' c' Hin. apply (H m' c'). by right.
Qed.

Lemma column_letters_of_labels (resolved : list (string * nat)) letters :
  column_letters_of resolved = inr letters → letters.*1 = resolved.*1.
Proof.
  revert letters. induction resolved as [|[m c] l IH]; intros letters; simpl.
  - by intros [= <-].
  - destruct (get_column_letter c); [|done].
    destruct (column_letters_of l) as [|ls]; [done|].
    intros [= <-]. simpl. f_equal. by apply IH.
Qed.

Lemma header_width_ge_1 ws : 1 ≤ header_width ws.
Proof.
  rewrite header_width_unfold. destruct (header_cols ws) as [|c cs] eqn:E.
  - unfold max_column. simpl. lia.
  - assert (c ∈ header_cols ws) as [Hc Hv]%header_cols_elem by (rewrite E; by left).
    simpl. lia.
Qed.

(** The loop is followed by a successful finalisation as soon as the
    header width has a column letter. *)
Lemma final_sheet_inr ws df :
  (N.of_nat (header_width ws) ≤ 18278)%N → ∃ ws', final_sheet ws df = inr ws'.
Proof.
  intros Hw. unfold final_sheet. rewrite expand_eq.
  destruct (loop_used_rows ws df) as (_ & -> & _).
  destruct (get_column_letter_is_Some (header_width ws) (header_width_ge_1 ws) Hw)
    as [x ->].
  by eexists.
Qed.

Lemma outcome_returns master bp ws df :
  (N.of_nat (header_width ws) ≤ 18278)%N →
  ∃ res, (outcome master bp ws df).2 = inr res.
Proof.
  intros Hw. unfold outcome. cbv zeta.
  destruct (res_resolved_map (resolve_columns df (_build_apr_header_index ws)))
    as [|mc l] eqn:Hres; [by eexists|].
  destruct (final_sheet_inr ws df Hw) as [ws' ->]. cbn [fst snd].
  destruct (column_letters_of_inr (mc :: l)) as [letters ->]; [|by eexists].
  intros m c Hin. assert ((m, c) ∈ resolved_of ws df) as Hin'
    by (unfold resolved_of; by rewrite Hres).
  apply resolved_of_bounds in Hin' as (Hc & _ & _).
  apply get_column_letter_is_Some; lia.
Qed.

Lemma normalize_columns_labels (raw : DataFrame) :
  ((λ '(c, vs), (default c (assoc (_norm (VStr c)) aliases), vs))
     <$> cols raw : list (string * list value)).*1 = renamed_labels raw.
Proof.
  unfold renamed_labels, columns. rewrite <-!list_fmap_compose.
  apply list_fmap_ext. by intros _ [c vs] _.
Qed.

Lemma normalize_columns_inr (raw : DataFrame) :
  NoDup (renamed_labels raw) ↔ ∃ df, _normalize_columns raw = inr df.
Proof.
  unfold _normalize_columns. rewrite normalize_columns_labels.
  case_bool_decide; split; try done; try by eexists. by intros [? ?].
Qed.

(** Every label of the column map is accounted for by one of the three
    collections of the resolution. *)
Lemma resolution_covers ws df m :
  m ∈ COLUMN_MAP.*1 →
  m ∈ (resolved_of ws df).*1 ∨
  m ∈ (res_skipped_targets (resolve_columns df (_build_apr_header_index ws))).*1 ∨
  m ∈ filter (λ c, has_column df c = false) COLUMN_MAP.*1.
Proof.
  intros Hin.
  destruct (resolve_columns_fields df (_build_apr_header_index ws)) as (_ & _ & ->).
  destruct (has_column df m) eqn:Hm; last first.
  { right. right. by apply list_elem_of_filter. }
  apply list_elem_of_fmap in Hin as ([m' ts] & -> & Hin). simpl in *.
  destruct (_resolve_target_col (_build_apr_header_index ws) ts) as [c|] eqn:Hr.
  - left. apply list_elem_of_fmap. exists (m', c). split; [done|].
    apply resolved_of_elem. eauto.
  - right. left. apply list_elem_of_fmap. exists (m', ts). split; [done|].
    by apply list_elem_of_filter.
Qed.

End UsedRows.

(** * The specified properties *)

Section Claims.
Context {R : PyRuntime}.
Implicit Types (ws : Worksheet) (df : DataFrame) (w : World).

(** C10 (row-count consistency).  Every run that returns a result reports
    [rows_after = rows_before + rows_added]: each appended row holds a
    value within the header width, so the last used row moves down by
    exactly the number of rows written. *)
Theorem C10_row_count_consistency w master month w' res :
  ingest_month_into_apr_bundle master month w = (w', inr res) →
  rows_after res = rows_before res + rows_added res.
Proof.
  intros Hrun.
  destruct (ingest_inr_inv _ _ _ _ _ Hrun) as (fm & wb & ws & df & Hfm & Hwb & Hws & Hdf).
  rewrite (ingest_eq w master month fm wb ws df Hfm Hwb Hws Hdf) in Hrun.
  injection Hrun as _ Hres.
  apply outcome_inr in Hres as (_ & _ & _ & Hb & _ & _ & [Hzero|Hloop]).
  - destruct Hzero as (_ & _ & -> & -> & _). lia.
  - destruct Hloop as (_ & ws' & Hfin & _ & -> & -> & _).
    apply final_sheet_used_rows in Hfin as (_ & _ & ->).
    rewrite Hb. pose proof (last_used_ge_1 ws). lia.
Qed.

Lemma omap_nil_inv {A B} (g : A → option B) (l : list A) x :
  omap g l = [] → x ∈ l → g x = None.
Proof.
  induction l as [|y l IH]; intros Hn Hin; [by apply elem_of_nil in Hin|].
  simpl in Hn. destruct (g y) eqn:E; [done|].
  apply elem_of_cons in Hin as [->|Hin]; [done|by apply IH].
Qed.

Lemma filter_ext_in {A} (P1 P2 : A → Prop)
    `{!∀ x, Decision (P1 x), !∀ x, Decision (P2 x)} (l : list A) :
  (∀ x, x ∈ l → P1 x ↔ P2 x) → filter P1 l = filter P2 l.
Proof.
  induction l as [|a l IH]; intros Hext; [done|].
  rewrite !filter_cons. rewrite IH by (intros x Hx; apply Hext; by right).
  pose proof (Hext a (list_elem_of_here _ _)) as Ha.
  destruct (decide (P1 a)), (decide (P2 a)); tauto || done.
Qed.

(** C7 (zero mapping).  When no monthly column resolves to a column of the
    ledger, the run does not raise: it copies the master to the backup
    path and changes nothing else in the file system (the ledger file
    reads as before, the workbook is never saved), and it returns
    [rows_added = 0], [rows_after = rows_before], the empty resolved map,
    the monthly columns that are absent, and every column that is present
    as unresolved. *)
Theorem C7_zero_mapping w master month fm wb ws df :
  fs w !! master = Some fm → wb_view fm = Some wb → wb !! APR_SHEET = Some ws →
  monthly_frame w month = Some df →
  resolved_of ws df = [] →
  let bp := backup_path_of master (clock w) in
  ∃ res,
    ingest_month_into_apr_bundle master month w =
      ({| fs := <[bp := fm]> (fs w); clock := clock w |}, inr res) ∧
    (<[bp := fm]> (fs w)) !! bp = Some fm ∧
    (<[bp := fm]> (fs w)) !! master = Some fm ∧
    master_backup res = bp ∧
    rows_added res = 0 ∧ rows_after res = rows_before res ∧
    rows_before res = last_used ws - 1 ∧
    resolved_map res = [] ∧
    unmapped_monthly_columns res = filter (λ c, has_column df c = false) COLUMN_MAP.*1 ∧
    unresolved_targets res =
      filter (λ e : string * list string, has_column df e.1 = true) COLUMN_MAP.
Proof.
  intros Hfm Hwb Hws Hdf Hres. cbv zeta.
  rewrite (ingest_eq w master month fm wb ws df Hfm Hwb Hws Hdf).
  generalize (backup_path_of master (clock w)). intros bp.
  assert (∃ res, (outcome master bp ws df).2 = inr res) as [res Hout].
  { generalize Hres. unfold outcome, resolved_of. cbv zeta.
    destruct (res_resolved_map (resolve_columns df (_build_apr_header_index ws)));
      [|done].
    intros _. eexists. reflexivity. }
  exists res. rewrite Hout.
  apply outcome_inr in Hout
    as (Hb & _ & _ & Hbefore & Hskip & Hmiss & [Hzero|[Hne _]]); [|done].
  destruct Hzero as (_ & Hsaved & Hadd & Hafter & _ & Hmap).
  rewrite Hsaved. unfold fs_after.
  split; [reflexivity|]. split; [apply lookup_insert_eq|].
  split.
  { destruct (decide (bp = master)) as [->|Hne].
    - apply lookup_insert_eq.
    - by rewrite lookup_insert_ne. }
  do 6 (split; [assumption|]).
  rewrite Hskip.
  destruct (resolve_columns_fields df (_build_apr_header_index ws)) as (_ & _ & ->).
  rewrite resolved_of_omap in Hres.
  apply filter_ext_in. intros [m ts] Hin. cbn [fst snd].
  pose proof (omap_nil_inv _ _ _ Hres Hin) as Hnone. unfold resolve_entry in Hnone.
  cbn [fst snd] in Hnone. clear Hres. destruct (has_column df m).
  - destruct (_resolve_target_col _ ts); [done|]. split; [by intros [? _]|done].
  - split; [by intros [? _]|done].
Qed.

End Claims.


(** C10, on the demo ledger and report. *)
Lemma C10_witness :
  match (ingest_month_into_apr_bundle Demo.master Demo.month Demo.world).2 with
  | inr res => rows_after res = rows_before res + rows_added res
  | inl _ => False
  end.
Proof.
  destruct (ingest_month_into_apr_bundle Demo.master Demo.month Demo.world)
    as [w' [e|res]] eqn:E.
  - exfalso.
    assert (raised (ingest_month_into_apr_bundle Demo.master Demo.month Demo.world).2
            = false) as Hb by (vm_compute; reflexivity).
    rewrite E in Hb. discriminate Hb.
  - exact (C10_row_count_consistency Demo.world Demo.master Demo.month w' res E).
Defined.

(** ** Facts about the string methods *)

Section StringFacts.

Lemma lstrip_head s :
  PyStr.lstrip s = EmptyString ∨
  ∃ a t, PyStr.lstrip s = String a t ∧ PyStr.is_space a = false.
Proof.
  induction s as [|a s IH]; [by left|]. simpl.
  destruct (PyStr.is_space a) eqn:E; [done|]. right. by exists a, s.
Qed.

Lemma lstrip_nonspace a t :
  PyStr.is_space a = false → PyStr.lstrip (String a t) = String a t.
Proof. intros H. simpl. by rewrite H. Qed.

Lemma rstrip_nonspace a t :
  PyStr.is_space a = false → ∃ r, PyStr.rstrip (String a t) = String a r.
Proof.
  intros H. simpl. destruct (PyStr.rstrip t); [|by eexists].
  rewrite H. by eexists.
Qed.

Lemma rstrip_idem s : PyStr.rstrip (PyStr.rstrip s) = PyStr.rstrip s.
Proof.
  induction s as [|a s IH]; [done|]. simpl.
  destruct (PyStr.rstrip s) as [|b r] eqn:E.
  - destruct (PyStr.is_space a) eqn:Ha; [done|]. simpl. by rewrite Ha.
  - change (PyStr.rstrip (String a (String b r))) with
      (match PyStr.rstrip (String b r) with
       | EmptyString => if PyStr.is_space a then EmptyString else String a EmptyString
       | r' => String a r'
       end).
    by rewrite IH.
Qed.

(** [strip] is idempotent. *)
Lemma strip_idem s : PyStr.strip (PyStr.strip s) = PyStr.strip s.
Proof.
  unfold PyStr.strip.
  destruct (lstrip_head s) as [->|(a & t & -> & Ha)]; [done|].
  destruct (rstrip_nonspace a t Ha) as [r Hr]. rewrite Hr.
  rewrite (lstrip_nonspace a r Ha). rewrite <-Hr. apply rstrip_idem.
Qed.

Lemma is_space_lower_char a : PyStr.is_space (PyStr.lower_char a) = PyStr.is_space a.
Proof. by destruct a as [[] [] [] [] [] [] [] []]. Qed.

Lemma lower_char_idem a : PyStr.lower_char (PyStr.lower_char a) = PyStr.lower_char a.
Proof. by destruct a as [[] [] [] [] [] [] [] []]. Qed.

Lemma lower_idem s : PyStr.lower (PyStr.lower s) = PyStr.lower s.
Proof. induction s as [|a s IH]; [done|]. simpl. by rewrite lower_char_idem, IH. Qed.

Lemma lstrip_lower s : PyStr.lstrip (PyStr.lower s) = PyStr.lower (PyStr.lstrip s).
Proof.
  induction s as [|a s IH]; [done|]. simpl. rewrite is_space_lower_char.
  by destruct (PyStr.is_space a).
Qed.

Lemma rstrip_lower s : PyStr.rstrip (PyStr.lower s) = PyStr.lower (PyStr.rstrip s).
Proof.
  induction s as [|a s IH]; [done|]. simpl. rewrite IH, is_space_lower_char.
  destruct (PyStr.rstrip s); simpl; [by destruct (PyStr.is_space a)|done].
Qed.

Lemma strip_lower s : PyStr.strip (PyStr.lower s) = PyStr.lower (PyStr.strip s).
Proof. unfold PyStr.strip. by rewrite lstrip_lower, rstrip_lower. Qed.

Lemma collapse_go_lower b s :
  PyStr.collapse_go b (PyStr.lower s) = PyStr.lower (PyStr.collapse_go b s).
Proof.
  revert b. induction s as [|a s IH]; intros b; [done|]. simpl.
  rewrite is_space_lower_char. destruct (PyStr.is_space a), b; simpl;
    by rewrite IH.
Qed.

Lemma collapse_go_double_space b s1 s2 :
  PyStr.collapse_go b (s1 +:+ "  " +:+ s2) = PyStr.collapse_go b (s1 +:+ " " +:+ s2).
Proof.
  revert b. induction s1 as [|a s1 IH]; intros b.
  - by destruct b.
  - change (String a s1 +:+ ?x) with (String a (s1 +:+ x)). simpl.
    destruct (PyStr.is_space a), b; by rewrite IH.
Qed.

Lemma lstrip_collapse_go b s :
  PyStr.lstrip (PyStr.collapse_go b s) = PyStr.lstrip (PyStr.collapse_go true s).
Proof.
  destruct b; [done|]. destruct s as [|a s]; [done|]. simpl.
  by destruct (PyStr.is_space a).
Qed.

End StringFacts.

(** * Further properties of the code *)

Section Extras.
Context {R : PyRuntime}.
Implicit Types (ws : Worksheet) (df : DataFrame) (w : World).

(** X1.  [_last_used_row(ws, from_row=2, to_col)] returns the given
    [to_col] (the header width when it is not given) and a row that is
    either 1, when no data row holds a value in columns 1..to_col, or a data
    row that holds one; no row below the returned one holds a value in
    those columns. *)
Theorem X1_last_used_row_spec ws (to_col : option nat) :
  let last := (_last_used_row ws 2 to_col).1 in
  let tc := (_last_used_row ws 2 to_col).2 in
  tc = default (header_width ws) to_col ∧
  (last = 1 ∨ (2 ≤ last ∧ row_has_value ws tc last = true)) ∧
  (∀ r, last < r → row_has_value ws tc r = false).
Proof.
  cbv zeta.
  assert ((_last_used_row ws 2 to_col).2 = default (header_width ws) to_col) as Htc
    by (by destruct to_col).
  assert ((_last_used_row ws 2 to_col).1 =
          foldl (λ last r, if row_has_value ws (default (header_width ws) to_col) r
                           then r else last) 1 (seq 2 (max_row ws + 1 - 2))) as ->
    by (by destruct to_col).
  rewrite Htc. split; [done|].
  pose proof (last_loop_spec (row_has_value ws (default (header_width ws) to_col))
                2 (max_row ws + 1 - 2) 1 ltac:(lia)) as [H1 H2].
  cbv zeta in H1, H2. split.
  - destruct H1 as [->|[? ?]]; [by left|right; split; [lia|done]].
  - intros r Hr.
    destruct (decide (r < 2 + (max_row ws + 1 - 2))) as [Hlt|Hge].
    + apply H2; [done|]. destruct H1 as [H1|[? ?]]; [rewrite H1 in Hr|]; lia.
    + apply row_has_value_false. intros c Hc.
      destruct (decide (cell_value ws r c = VNone)) as [|Hv]; [done|].
      apply cell_value_bounds in Hv as [? _]. lia.
Qed.

(** X2.  The default width of [_last_used_row] is at least 1 and bounds
    every column that carries a header; it is itself a column with a
    header, unless the whole header row is empty, in which case it is
    [ws.max_column]. *)
Theorem X2_header_width_spec ws :
  1 ≤ header_width ws ∧
  (∀ c, 1 ≤ c → cell_value ws 1 c ≠ VNone → c ≤ header_width ws) ∧
  (cell_value ws 1 (header_width ws) ≠ VNone ∨
   ((∀ c, 1 ≤ c → cell_value ws 1 c = VNone) ∧ header_width ws = max_column ws)).
Proof.
  split; [apply header_width_ge_1|].
  destruct (header_cols ws) as [|c0 cs] eqn:E.
  - assert (∀ c, 1 ≤ c → cell_value ws 1 c = VNone) as Hnone.
    { intros c Hc. destruct (decide (cell_value ws 1 c = VNone)) as [|Hv]; [done|].
      assert (c ∈ header_cols ws) as Hin by (by apply header_cols_elem).
      rewrite E in Hin. by apply elem_of_nil in Hin. }
    split.
    + intros c Hc Hv. by rewrite Hnone in Hv.
    + right. split; [done|]. rewrite header_width_unfold. by rewrite E.
  - assert (c0 ∈ header_cols ws) as [Hc Hv]%header_cols_elem by (rewrite E; by left).
    destruct (header_width_spec ws c0 Hc Hv) as (_ & H2 & H3).
    split; [done|by left].
Qed.

(** X3.  [_resolve_target_col] returns the column of the first candidate
    spelling that the header index knows, and nothing exactly when the
    index knows none of the candidates. *)
Theorem X3_resolve_target_col_first (hm : gmap string nat) (candidates : list string) :
  (_resolve_target_col hm candidates = None ↔
     ∀ name, name ∈ candidates → hm !! _norm (VStr name) = None) ∧
  (∀ c, _resolve_target_col hm candidates = Some c ↔
     ∃ before name after,
       candidates = before ++ name :: after ∧
       hm !! _norm (VStr name) = Some c ∧
       ∀ n, n ∈ before → hm !! _norm (VStr n) = None).
Proof.
  induction candidates as [|name rest [IHn IHs]].
  - split.
    + split; [intros _ n Hn; by apply elem_of_nil in Hn|done].
    + intros c. split; [done|]. intros (b & n & a & Heq & _). by destruct b.
  - simpl. destruct (hm !! _norm (VStr name)) as [c0|] eqn:E.
    + split.
      * split; [done|]. intros H. specialize (H name (list_elem_of_here _ _)).
        congruence.
      * intros c. split.
        -- intros [= <-]. exists [], name, rest. split_and!; [done..|].
           intros n Hn. by apply elem_of_nil in Hn.
        -- intros (b & n & a & Heq & Hn & Hb). destruct b as [|n0 b].
           ++ simpl in Heq. injection Heq as <- <-. congruence.
           ++ simpl in Heq. injection Heq as <- ->.
              specialize (Hb name (list_elem_of_here _ _)). congruence.
    + split.
      * rewrite IHn. split.
        -- intros H n [->|Hn]%elem_of_cons; [done|by apply H].
        -- intros H n Hn. apply H. by right.
      * intros c. rewrite IHs. split.
        -- intros (b & n & a & -> & Hn & Hb). exists (name :: b), n, a.
           split_and!; [done..|]. intros n' [->|Hn']%elem_of_cons; [done|by apply Hb].
        -- intros (b & n & a & Heq & Hn & Hb). destruct b as [|n0 b].
           ++ simpl in Heq. injection Heq as <- <-. congruence.
           ++ simpl in Heq. injection Heq as <- ->. exists b, n, a.
              split_and!; [done..|]. intros n' Hn'. apply Hb. by right.
Qed.

(** X4.  [_normalize_purchase_date_column] rewrites exactly the cells of
    the first column headed "Purchase Date" in the data rows 2..last used
    row: a text or number that reads as a date becomes that datetime,
    every other cell of the sheet keeps its value. *)
Theorem X4_normalize_date_column_cells ws r c :
  cell_value (_normalize_purchase_date_column ws) r c =
    if decide (_find_header_col ws "Purchase Date" = Some c ∧ 2 ≤ r ≤ last_used ws)
    then normalized_date (cell_value ws r c)
    else cell_value ws r c.
Proof. by destruct (normalize_spec ws) as (H & _). Qed.

(** X5.  [_normalize_purchase_date_column] never empties or fills a cell
    and leaves the header row, the width, the last used row, the filter
    and the tables of the sheet as they are. *)
Theorem X5_normalize_date_column_preserves ws :
  let ws' := _normalize_purchase_date_column ws in
  (∀ r c, isna (cell_value ws' r c) = isna (cell_value ws r c)) ∧
  header_row ws' = header_row ws ∧
  header_width ws' = header_width ws ∧
  last_used ws' = last_used ws ∧
  max_column ws' = max_column ws ∧
  auto_filter_ref ws' = auto_filter_ref ws ∧
  tables ws' = tables ws.
Proof.
  cbv zeta. destruct (normalize_used_rows ws) as (H1 & H2 & H3).
  destruct (normalize_spec ws) as (_ & M1 & M2 & M3).
  split_and!; try done. intros r c. apply normalize_isna.
Qed.


(** X7.  The cell that the write loop stores in the "Purchase Date" column
    is empty or a datetime on a whole second, whatever the report
    holds. *)
Theorem X7_written_date_whole_second df i :
  match cell_to_write df i "Purchase Date" with
  | VNone => True
  | VDate t => (t mod 1000000 = 0)%Z
  | _ => False
  end.
Proof.
  unfold cell_to_write.
  assert (bool_decide ("Purchase Date" = "Amount") = false) as -> by done.
  rewrite bool_decide_eq_true_2 by done.
  assert (∀ v, match match to_datetime v with
                     | Some dt => VDate (replace_microsecond_0 dt)
                     | None => VNone
                     end with
               | VNone => True
               | VDate t => (t mod 1000000 = 0)%Z
               | _ => False
               end) as H.
  { intros v. destruct (to_datetime v); [|done]. unfold replace_microsecond_0.
    apply Z.mod_mul. lia. }
  destruct (_coerce_for_excel (iloc df i "Purchase Date")); apply H.
Qed.

(** X8.  The resolved mapping of a run holds each monthly label at most
    once and each ledger column at most once; every resolved column lies
    within the header width and carries a header whose normal form is that
    of one of the label's target spellings. *)
Theorem X8_resolved_columns_distinct ws df :
  NoDup (resolved_of ws df).*1 ∧ NoDup (resolved_of ws df).*2 ∧
  ∀ m c, (m, c) ∈ resolved_of ws df →
    has_column df m = true ∧ 1 ≤ c ≤ header_width ws ∧
    cell_value ws 1 c ≠ VNone ∧
    ∃ ts name, (m, ts) ∈ COLUMN_MAP ∧ name ∈ ts ∧
               _norm (cell_value ws 1 c) = _norm (VStr name).
Proof.
  split; [apply resolved_of_NoDup_labels|]. split; [apply resolved_of_NoDup|].
  intros m c Hin. pose proof (resolved_of_bounds ws df m c Hin) as (Hc & _ & Hv).
  apply resolved_of_elem in Hin as (ts & Hts & Hm & Hr).
  apply resolve_target_col_Some in Hr as (name & Hn & Hl).
  apply header_index_lookup in Hl as (_ & _ & Hk).
  split_and!; try done; try lia. by exists ts, name.
Qed.


Lemma find_header_seq ws target a n c :
  find_header target ((λ c, (c, cell_value ws 1 c)) <$> seq a n) = Some c ↔
  a ≤ c < a + n ∧ cell_value ws 1 c ≠ VNone ∧ _norm (cell_value ws 1 c) = target ∧
  ∀ c', a ≤ c' < c → cell_value ws 1 c' ≠ VNone → _norm (cell_value ws 1 c') ≠ target.
Proof.
  revert a. induction n as [|n IH]; intros a.
  - simpl. split; [done|]. intros [? _]. lia.
  - simpl. destruct (isna (cell_value ws 1 a)) eqn:Hna.
    + apply isna_true in Hna. rewrite IH. split.
      * intros (Hc & Hv & Hn & Hfirst). split; [lia|]; split; [done|]; split; [done|].
        intros c' Hc' Hv'. destruct (decide (c' = a)) as [->|]; [done|].
        apply Hfirst; [lia|done].
      * intros (Hc & Hv & Hn & Hfirst).
        assert (c ≠ a) by (intros ->; done).
        split; [lia|]; split; [done|]; split; [done|]. intros c' Hc'. apply Hfirst. lia.
    + apply isna_false in Hna. case_bool_decide as Hn.
      * split.
        -- intros [= <-]. split; [lia|]; split; [done|]; split; [done|]. intros; lia.
        -- intros (Hc & Hv & Hn' & Hfirst).
           destruct (decide (c = a)) as [->|Hne]; [done|].
           exfalso. apply (Hfirst a); [lia|done..].
      * rewrite IH. split.
        -- intros (Hc & Hv & Hn' & Hfirst). split; [lia|]; split; [done|]; split; [done|].
           intros c' Hc' Hv'. destruct (decide (c' = a)) as [->|]; [done|].
           apply Hfirst; [lia|done].
        -- intros (Hc & Hv & Hn' & Hfirst).
           assert (c ≠ a) by (intros ->; done).
           split; [lia|]; split; [done|]; split; [done|]. intros c' Hc'. apply Hfirst. lia.
Qed.

Lemma header_index_seq ws k a n c :
  foldl (λ (header_map : gmap string nat) '(col_idx, v),
           if isna v then header_map else <[_norm v := col_idx]> header_map)
        ∅ ((λ c, (c, cell_value ws 1 c)) <$> seq a n) !! k = Some c ↔
  a ≤ c < a + n ∧ cell_value ws 1 c ≠ VNone ∧ _norm (cell_value ws 1 c) = k ∧
  ∀ c', c < c' < a + n → cell_value ws 1 c' ≠ VNone → _norm (cell_value ws 1 c') ≠ k.
Proof.
  induction n as [|n IH].
  - simpl. rewrite lookup_empty. split; [done|]. intros [? _]. lia.
  - rewrite seq_S, fmap_app, foldl_app. simpl.
    destruct (isna (cell_value ws 1 (a + n))) eqn:Hna.
    + apply isna_true in Hna. rewrite IH. split.
      * intros (Hc & Hv & Hn & Hlast). split; [lia|]; split; [done|]; split; [done|].
        intros c' Hc' Hv'. destruct (decide (c' = a + n)) as [->|]; [done|].
        apply Hlast; [lia|done].
      * intros (Hc & Hv & Hn & Hlast).
        assert (c ≠ a + n) by (intros ->; done).
        split; [lia|]; split; [done|]; split; [done|]. intros c' Hc'. apply Hlast. lia.
    + apply isna_false in Hna.
      destruct (decide (_norm (cell_value ws 1 (a + n)) = k)) as [<-|Hne].
      * rewrite lookup_insert_eq. split.
        -- intros [= <-]. split; [lia|]; split; [done|]; split; [done|]. intros; lia.
        -- intros (Hc & Hv & Hn' & Hlast).
           destruct (decide (c = a + n)) as [->|Hne]; [done|].
           exfalso. apply (Hlast (a + n)); [lia|done..].
      * rewrite lookup_insert_ne by done. rewrite IH. split.
        -- intros (Hc & Hv & Hn' & Hlast). split; [lia|]; split; [done|]; split; [done|].
           intros c' Hc' Hv'. destruct (decide (c' = a + n)) as [->|]; [done|].
           apply Hlast; [lia|done].
        -- intros (Hc & Hv & Hn' & Hlast).
           assert (c ≠ a + n) by (intros ->; congruence).
           split; [lia|]; split; [done|]; split; [done|]. intros c' Hc'. apply Hlast. lia.
Qed.

(** X10.  [_build_apr_header_index] maps a normal form to the last column
    of row 1 whose header has that normal form: when a header occurs
    twice, the later column wins. *)
Theorem X10_header_index_last_wins ws k c :
  _build_apr_header_index ws !! k = Some c ↔
  1 ≤ c ∧ cell_value ws 1 c ≠ VNone ∧ _norm (cell_value ws 1 c) = k ∧
  ∀ c', c < c' → cell_value ws 1 c' ≠ VNone → _norm (cell_value ws 1 c') ≠ k.
Proof.
  unfold _build_apr_header_index, header_row. rewrite header_index_seq. split.
  - intros (Hc & Hv & Hk & Hlast). split; [lia|]; split; [done|]; split; [done|].
    intros c' Hc' Hv'. apply Hlast; [|done].
    apply cell_value_bounds in Hv' as [_ ?]. lia.
  - intros (Hc & Hv & Hk & Hlast). split; [|split; [done|]; split; [done|]].
    + apply cell_value_bounds in Hv as [_ ?]. lia.
    + intros c' Hc'. apply Hlast. lia.
Qed.

(** X11.  [_find_header_col] returns the first column of row 1 whose
    header has the normal form of the given text: when a header occurs
    twice, the earlier column wins, unlike in the header index. *)
Theorem X11_find_header_col_first_wins ws header_text c :
  _find_header_col ws header_text = Some c ↔
  1 ≤ c ∧ cell_value ws 1 c ≠ VNone ∧
  _norm (cell_value ws 1 c) = _norm (VStr header_text) ∧
  ∀ c', 1 ≤ c' < c → cell_value ws 1 c' ≠ VNone →
        _norm (cell_value ws 1 c') ≠ _norm (VStr header_text).
Proof.
  unfold _find_header_col, header_row. rewrite find_header_seq. split.
  - intros (Hc & Hv & Hk & Hfirst). split; [lia|]; split; [done|]; split; done.
  - intros (Hc & Hv & Hk & Hfirst). split; [|split; [done|]; split; done].
    apply cell_value_bounds in Hv as [_ ?]. lia.
Qed.

(** X12.  [_coerce_for_excel] is idempotent, maps exactly the missing
    values to None, and every text it returns is free of leading and
    trailing white space. *)
Theorem X12_coerce_for_excel (val : value) :
  _coerce_for_excel (_coerce_for_excel val) = _coerce_for_excel val ∧
  isna (_coerce_for_excel val) = isna val ∧
  (∀ s, _coerce_for_excel val = VStr s → PyStr.strip s = s).
Proof.
  destruct val as [|s0| |]; simpl; split_and!; try done.
  - by rewrite strip_idem.
  - intros s [= <-]. apply strip_idem.
Qed.

(** X13.  [_norm] does not see the case of its argument, nor whether two
    words are separated by one space or by two, nor a leading space: the
    single and the double spaced spelling of a header have the same normal
    form. *)
Theorem X13_norm_tolerant (s s1 s2 : string) :
  _norm (VStr (PyStr.lower s)) = _norm (VStr s) ∧
  _norm (VStr (s1 +:+ "  " +:+ s2)) = _norm (VStr (s1 +:+ " " +:+ s2)) ∧
  _norm (VStr (" " +:+ s)) = _norm (VStr s).
Proof.
  unfold _norm, PyStr.collapse_spaces. cbn [py_str]. split_and!.
  - by rewrite collapse_go_lower, strip_lower, lower_idem.
  - by rewrite collapse_go_double_space.
  - change (" " +:+ s) with (String " "%char s). cbn [PyStr.collapse_go PyStr.is_space].
    unfold PyStr.strip. cbn [PyStr.lstrip PyStr.is_space].
    by rewrite (lstrip_collapse_go false).
Qed.

Lemma keys_fold (f : nat → list kval) (a n : nat) (k : list kval) :
  k ∈ foldl (λ (keys : gset (list kval)) r, {[ f r ]} ∪ keys) ∅ (seq a n) ↔
  ∃ r, a ≤ r < a + n ∧ k = f r.
Proof.
  induction n as [|n IH].
  - simpl. split; [by intros ?%not_elem_of_empty|]. intros (r & ? & _). lia.
  - rewrite seq_S, foldl_snoc, elem_of_union, elem_of_singleton, IH. split.
    + intros [->|(r & Hr & ->)]; [exists (a + n)|exists r]; split; (lia || done).
    + intros (r & Hr & ->). destruct (decide (r = a + n)) as [->|]; [by left|].
      right. exists r. split; [lia|done].
Qed.

Lemma read_existing_keys_elem ws (k : list kval) :
  k ∈ _read_existing_keys ws ↔
  present_fields ws ≠ [] ∧
  ∃ r, 2 ≤ r ≤ last_used ws ∧ k = existing_row_key ws (present_fields ws) r.
Proof.
  unfold _read_existing_keys. cbv zeta.
  destruct (present_fields ws) as [|p ps] eqn:E.
  - split; [by intros ?%not_elem_of_empty|]. by intros [? _].
  - rewrite <-E.
    assert ((let '(last_row, _) := _last_used_row ws 2 None in
             foldl (λ (keys : gset (list kval)) r,
                      {[ existing_row_key ws (present_fields ws) r ]} ∪ keys)
                   ∅ (seq 2 (last_row + 1 - 2))) =
            foldl (λ (keys : gset (list kval)) r,
                     {[ existing_row_key ws (present_fields ws) r ]} ∪ keys)
                  ∅ (seq 2 (last_used ws + 1 - 2))) as ->.
    { unfold last_used. by destruct (_last_used_row ws 2 None). }
    rewrite keys_fold. pose proof (last_used_ge_1 ws). split.
    + intros (r & Hr & ->). split; [by rewrite E|]. exists r. split; [lia|done].
    + intros (_ & r & Hr & ->). exists r. split; [lia|done].
Qed.

(** X14.  The keys that [_read_existing_keys] collects are exactly the
    keys of the data rows 2..last used row, built over the identity fields
    that have a column on the sheet; the set is empty when none of the
    fields has a column or when the sheet has no data row. *)
Theorem X14_read_existing_keys_rows ws (k : list kval) :
  k ∈ _read_existing_keys ws ↔
  present_fields ws ≠ [] ∧
  ∃ r, 2 ≤ r ≤ last_used ws ∧ k = existing_row_key ws (present_fields ws) r.
Proof. apply read_existing_keys_elem. Qed.

Lemma length_omap_le {A B} (f : A → option B) (l : list A) :
  length (omap f l) ≤ length l.
Proof.
  induction l as [|x l IH]; [done|]. cbn [omap list_omap]. fold (omap f l).
  destruct (f x); simpl; lia.
Qed.

(** X15.  A key of a monthly row always has six positions, a key read
    from the ledger has one position per identity field that has a column
    on the sheet; so when the sheet lacks the column of one identity field,
    no monthly key is ever found among the existing keys. *)
Theorem X15_key_arity ws df i :
  length (_make_row_key df i) = 6 ∧
  length (present_fields ws) ≤ 6 ∧
  (∀ k, k ∈ _read_existing_keys ws → length k = length (present_fields ws)) ∧
  (length (present_fields ws) < 6 → _make_row_key df i ∉ _read_existing_keys ws).
Proof.
  assert (length (_make_row_key df i) = 6) as H6
    by (unfold _make_row_key; by rewrite length_fmap).
  assert (∀ k, k ∈ _read_existing_keys ws → length k = length (present_fields ws))
    as Hlen.
  { intros k (_ & r & _ & ->)%read_existing_keys_elem.
    unfold existing_row_key. by rewrite length_fmap. }
  split_and!; [done| |done|].
  - unfold present_fields. apply (length_omap_le _ DEDUPE_FIELDS).
  - intros Hlt Hin. apply Hlen in Hin. lia.
Qed.

Lemma NoDup_fst_functional {A B} (l : list (A * B)) x y1 y2 :
  NoDup l.*1 → (x, y1) ∈ l → (x, y2) ∈ l → y1 = y2.
Proof.
  induction l as [|[a b] l IH]; simpl; intros Hnd H1 H2; [by apply elem_of_nil in H1|].
  apply NoDup_cons in Hnd as [Ha Hnd].
  apply elem_of_cons in H1 as [H1|H1]; apply elem_of_cons in H2 as [H2|H2];
    simplify_eq.
  - done.
  - destruct Ha. apply list_elem_of_fmap. by exists (a, y2).
  - destruct Ha. apply list_elem_of_fmap. by exists (a, y1).
  - by apply IH.
Qed.

Lemma column_map_NoDup : NoDup COLUMN_MAP.*1.
Proof. unfold COLUMN_MAP. simpl. refine (bool_decide_unpack _ _). by vm_compute. Qed.

(** X16.  The resolution loop sorts every label of [COLUMN_MAP] into
    exactly one of its three collections: resolved when the report has the
    column and the ledger has one of its targets, unresolved when the
    report has the column and the ledger has none of its targets, unmapped
    when the report lacks the column. *)
Theorem X16_resolution_partition df (hm : gmap string nat) :
  Forall (λ e : string * list string,
    (e.1 ∈ (res_resolved_map (resolve_columns df hm)).*1 ↔
       has_column df e.1 = true ∧ is_Some (_resolve_target_col hm e.2)) ∧
    (e ∈ res_skipped_targets (resolve_columns df hm) ↔
       has_column df e.1 = true ∧ _resolve_target_col hm e.2 = None) ∧
    (e.1 ∈ res_missing_monthly (resolve_columns df hm) ↔
       has_column df e.1 = false)) COLUMN_MAP.
Proof.
  destruct (resolve_columns_fields df hm) as (-> & -> & ->).
  apply Forall_forall. intros [m ts] Hin. cbn [fst snd]. split_and!.
  - rewrite list_elem_of_fmap. split.
    + intros ([m' c] & -> & ([m0 ts0] & Hin0 & He)%list_elem_of_omap).
      unfold resolve_entry in He. cbn [fst snd] in *.
      destruct (has_column df m0) eqn:Hm; [|done].
      destruct (_resolve_target_col hm ts0) eqn:Hr; [|done].
      simpl in He. injection He as -> <-.
      assert (ts0 = ts) as ->
        by (eapply (NoDup_fst_functional COLUMN_MAP); eauto using column_map_NoDup).
      rewrite Hr. eauto.
    + intros [Hm [c Hr]]. exists (m, c). split; [done|].
      apply list_elem_of_omap. exists (m, ts). split; [done|].
      unfold resolve_entry. cbn [fst snd]. by rewrite Hm, Hr.
  - rewrite list_elem_of_filter. cbn [fst snd]. tauto.
  - rewrite list_elem_of_filter. split; [tauto|]. intros Hm. split; [done|].
    apply list_elem_of_fmap. by exists (m, ts).
Qed.

Lemma trace_inv df (resolved : list (string * nat)) (keys0 : gset (list kval)) n :
  let t := trace_from df resolved
             {| tr_keys := keys0; tr_accepted := []; tr_duplicates := [] |} (seq 0 n) in
  tr_keys t = keys0 ∪ list_to_set (_make_row_key df <$> tr_accepted t) ∧
  NoDup (_make_row_key df <$> tr_accepted t) ∧
  (∀ i, i ∈ tr_accepted t →
     i < n ∧ (_make_row_key df i ∉ keys0) ∧ row_has_any df resolved i = true) ∧
  (∀ i, i ∈ tr_duplicates t → i < n ∧ (_make_row_key df i ∈ tr_keys t)) ∧
  (∀ i, i < n → i ∉ tr_accepted t → i ∉ tr_duplicates t →
     row_has_any df resolved i = false) ∧
  NoDup (tr_accepted t ++ tr_duplicates t).
Proof.
  cbv zeta. unfold trace_from. induction n as [|n IH].
  - simpl. split_and!; try done.
    + set_solver.
    + constructor.
    + intros i Hi. by apply elem_of_nil in Hi.
    + intros i Hi. by apply elem_of_nil in Hi.
    + intros; lia.
    + constructor.
  - rewrite seq_S, foldl_snoc. simpl.
    destruct IH as (Ha & Hb & Hc & Hd & He & Hf).
    set (t := foldl (trace_step df resolved) _ (seq 0 n)) in *.
    unfold trace_step. case_bool_decide as Hk.
    + cbn [tr_keys tr_accepted tr_duplicates]. split_and!; try done.
      * intros i Hi. destruct (Hc i Hi) as (? & ? & ?). split_and!; [lia|done..].
      * intros i [Hi|Hn%list_elem_of_singleton]%elem_of_app; [|subst i].
        -- destruct (Hd i Hi). split; [lia|done].
        -- split; [lia|done].
      * intros i Hi Hacc Hdup. apply He; [|done|].
        -- destruct (decide (i = n)) as [->|]; [|lia].
           destruct Hdup. apply elem_of_app. right. by left.
        -- intros Hin. apply Hdup. apply elem_of_app. by left.
      * rewrite app_assoc. apply NoDup_app. split; [done|]. split; [|apply NoDup_singleton].
        intros i [Hi|Hi]%elem_of_app Hn%list_elem_of_singleton; subst i.
        -- destruct (Hc n Hi). lia.
        -- destruct (Hd n Hi). lia.
    + destruct (row_has_any df resolved n) eqn:Hany.
      * cbn [tr_keys tr_accepted tr_duplicates]. rewrite fmap_app. simpl.
        split_and!.
        -- rewrite Ha, list_to_set_app_L. simpl. set_solver.
        -- apply NoDup_app. split; [done|]. split; [|apply NoDup_singleton].
           intros k Hin Hn%list_elem_of_singleton; subst k. apply Hk. rewrite Ha.
           apply elem_of_union. right. by apply elem_of_list_to_set.
        -- intros i [Hi|Hn%list_elem_of_singleton]%elem_of_app; [|subst i].
           ++ destruct (Hc i Hi) as (? & ? & ?). split_and!; [lia|done..].
           ++ split_and!; [lia| |done]. intros Hin. apply Hk. rewrite Ha.
              by apply elem_of_union_l.
        -- intros i Hi. destruct (Hd i Hi). split; [lia|].
           by apply elem_of_union_r.
        -- intros i Hi Hacc Hdup. apply He; [|by intros ?; apply Hacc, elem_of_app; left|done].
           destruct (decide (i = n)) as [->|]; [|lia].
           destruct Hacc. apply elem_of_app. right. by left.
        -- rewrite <-app_assoc. simpl.
           apply NoDup_app in Hf as (Hf1 & Hf2 & Hf3).
           apply NoDup_app. split; [done|]. split.
           ++ intros i Hi [->|Hi']%elem_of_cons; [destruct (Hc n Hi); lia|].
              by apply (Hf2 i).
           ++ apply NoDup_cons. split; [|done]. intros Hi. destruct (Hd n Hi). lia.
      * split_and!; try done.
        -- intros i Hi. destruct (Hc i Hi) as (? & ? & ?). split_and!; [lia|done..].
        -- intros i Hi. destruct (Hd i Hi). split; [lia|done].
        -- intros i Hi Hacc Hdup. destruct (decide (i = n)) as [->|]; [done|].
           apply He; [lia|done..].
Qed.

(** X17.  The write loop sorts the rows of the report into three kinds.
    The rows it writes have pairwise different keys, none of which was
    among the keys it started from, and each of them has a value for a
    resolved column; the rows it counts as duplicates have a key in the
    final key set; every other row has no value for any resolved column.
    The final key set is the initial one plus the keys of the written
    rows, and the two counters are the sizes of the first two kinds. *)
Theorem X17_write_loop_partition df (resolved : list (string * nat)) (start : nat) ws
    (keys0 : gset (list kval)) :
  let st := append_rows df resolved start ws keys0 in
  ∃ accepted duplicates : list nat,
    st_written st = length accepted ∧
    st_duplicates_skipped st = length duplicates ∧
    st_existing_keys st = keys0 ∪ list_to_set (_make_row_key df <$> accepted) ∧
    NoDup (_make_row_key df <$> accepted) ∧
    NoDup (accepted ++ duplicates) ∧
    (∀ i, i ∈ accepted →
       i < nrows df ∧ (_make_row_key df i ∉ keys0) ∧
       row_has_any df resolved i = true) ∧
    (∀ i, i ∈ duplicates →
       i < nrows df ∧ (_make_row_key df i ∈ st_existing_keys st)) ∧
    (∀ i, i < nrows df → i ∉ accepted → i ∉ duplicates →
       row_has_any df resolved i = false).
Proof.
  cbv zeta. destruct (append_rows_agree df resolved start ws keys0) as (Hk & Hw & Hd).
  pose proof (trace_inv df resolved keys0 (nrows df)) as H. cbv zeta in H.
  fold (trace df resolved keys0) in H.
  destruct H as (Ha & Hb & Hc & Hdup & He & Hf).
  exists (tr_accepted (trace df resolved keys0)),
         (tr_duplicates (trace df resolved keys0)).
  rewrite Hk. split_and!; done.
Qed.


(** A run either raises before it has touched anything, or it has found
    both files, the sheet and a frame. *)
Lemma ingest_cases w master month :
  (∃ e, ingest_month_into_apr_bundle master month w = (w, inl e)) ∨
  (∃ fm wb ws df,
     fs w !! master = Some fm ∧ wb_view fm = Some wb ∧ wb !! APR_SHEET = Some ws ∧
     monthly_frame w month = Some df).
Proof.
  unfold ingest_month_into_apr_bundle.
  erewrite io_bind_inr by reflexivity. unfold isfile.
  destruct (fs w !! master) as [fm|] eqn:Hfm; last first.
  { rewrite bool_decide_eq_false_2 by (by intros [? ?]). left. by eexists. }
  rewrite bool_decide_eq_true_2 by eauto. cbn [negb].
  destruct (fs w !! month) as [fmth|] eqn:Hmonth; last first.
  { rewrite bool_decide_eq_false_2 by (by intros [? ?]). left. by eexists. }
  rewrite bool_decide_eq_true_2 by eauto. cbn [negb].
  destruct (monthly_frame w month) as [df|] eqn:Hdf; last first.
  { assert (∃ e, _read_month_file month w = (w, inl e)) as [e He].
    { unfold monthly_frame, _read_month_file in *.
      erewrite io_bind_inr by reflexivity. rewrite Hmonth in *. simpl in *.
      destruct (df_view fmth) as [raw|]; [|by eexists].
      destruct (_normalize_columns raw) as [e|df0] eqn:Hn; [|done].
      exists e. by erewrite io_bind_inl by (unfold lift; reflexivity). }
    left. exists e. by erewrite io_bind_inl by exact He. }
  erewrite io_bind_inr by (by apply read_month_file_eq).
  destruct (wb_view fm) as [wb|] eqn:Hwb; last first.
  { assert (load_workbook master w = (w, inl InvalidFileException)) as He.
    { unfold load_workbook. erewrite io_bind_inr by reflexivity.
      rewrite Hfm. simpl. by rewrite Hwb. }
    left. eexists. by erewrite io_bind_inl by exact He. }
  erewrite io_bind_inr by (by eapply load_workbook_eq).
  destruct (wb !! APR_SHEET) as [ws|] eqn:Hws; [|left; by eexists].
  right. by exists fm, wb, ws, df.
Qed.



(** X20.  A run changes at most two files, the master and the backup of
    this run; every other path of the file system, and the clock, are as
    before. *)
Theorem X20_run_touches_two_files w master month (p : string) :
  match ingest_month_into_apr_bundle master month w with
  | (w', _) =>
      clock w' = clock w ∧
      (p = master ∨ p = backup_path_of master (clock w) ∨ fs w' !! p = fs w !! p)
  end.
Proof.
  destruct (ingest_cases w master month)
    as [[e ->]|(fm & wb & ws & df & Hfm & Hwb & Hws & Hdf)]; [by eauto|].
  destruct (ingest_month_into_apr_bundle master month w) as [w' r] eqn:Hrun.
  rewrite (ingest_eq w master month fm wb ws df Hfm Hwb Hws Hdf) in Hrun.
  injection Hrun as <- _. cbn [fs clock].
  split; [done|].
  destruct (decide (p = master)) as [|Hp1]; [by left|].
  destruct (decide (p = backup_path_of master (clock w))) as [|Hp2]; [by eauto|].
  right. right. unfold fs_after.
  destruct ((outcome master (backup_path_of master (clock w)) ws df).1).
  - rewrite lookup_insert_ne by done. by rewrite lookup_insert_ne.
  - by rewrite lookup_insert_ne.
Qed.

Lemma normalized_date_idem v : normalized_date (normalized_date v) = normalized_date v.
Proof.
  destruct v as [|s|x|t]; simpl; try done.
  - destruct (datetime_of_str s) eqn:E; simpl; [done|by rewrite E].
  - destruct (datetime_of_str (str_num x)) eqn:E; simpl; [done|by rewrite E].
Qed.

Lemma normalize_date_cell_fixed col ws r :
  normalized_date (cell_value ws r col) = cell_value ws r col →
  normalize_date_cell col ws r = ws.
Proof.
  unfold normalize_date_cell, normalized_date.
  destruct (cell_value ws r col) as [|s|x|t]; try done.
  - destruct (datetime_of_str (py_str (VStr s))); [done|done].
  - destruct (datetime_of_str (py_str (VNum x))); [done|done].
Qed.

(** X21.  [_normalize_purchase_date_column] is idempotent: a second pass
    over a sheet finds nothing left to convert. *)
Theorem X21_normalize_date_column_idem ws :
  _normalize_purchase_date_column (_normalize_purchase_date_column ws) =
  _normalize_purchase_date_column ws.
Proof.
  destruct (normalize_used_rows ws) as (Hrow & _ & Hlast).
  destruct (normalize_spec ws) as (Hcell & _).
  set (ws1 := _normalize_purchase_date_column ws) in *.
  unfold _normalize_purchase_date_column at 1.
  assert (_find_header_col ws1 "Purchase Date" = _find_header_col ws "Purchase Date")
    as -> by (unfold _find_header_col; by rewrite Hrow).
  destruct (_find_header_col ws "Purchase Date") as [col|] eqn:Hcol; [|done].
  assert ((let '(last_row, _) := _last_used_row ws1 2 None in
           foldl (normalize_date_cell col) ws1 (seq 2 (last_row + 1 - 2))) =
          foldl (normalize_date_cell col) ws1 (seq 2 (last_used ws1 + 1 - 2))) as ->.
  { unfold last_used. by destruct (_last_used_row ws1 2 None). }
  assert (∀ r, r ∈ seq 2 (last_used ws1 + 1 - 2) →
            normalized_date (cell_value ws1 r col) = cell_value ws1 r col) as Hfix.
  { intros r Hr%elem_of_seq. rewrite Hlast in Hr. rewrite Hcell.
    rewrite decide_True by (split; [done|lia]). apply normalized_date_idem. }
  revert Hfix. generalize (seq 2 (last_used ws1 + 1 - 2)). intros rows Hfix.
  induction rows as [|r rows IH]; [done|]. simpl.
  rewrite normalize_date_cell_fixed by (apply Hfix; by left).
  apply IH. intros r' Hr'. apply Hfix. by right.
Qed.

End Extras.
(** * The monthly frame: [_normalize_columns] and [_coerce_and_derive] *)


Section FrameFacts.
Context {R : PyRuntime}.
Implicit Types (df X : DataFrame) (c : string).

Lemma assoc_set_fst {A} c (v : A) (l : list (string * A)) c' :
  c' ∈ (assoc_set c v l).*1 ↔ c' = c ∨ c' ∈ l.*1.
Proof.
  induction l as [|[k w] l IH]; simpl.
  - rewrite list_elem_of_singleton. rewrite elem_of_nil. naive_solver.
  - case_bool_decide; simpl; rewrite !elem_of_cons.
    + subst. naive_solver.
    + rewrite IH. naive_solver.
Qed.


Lemma assoc_set_NoDup {A} c (v : A) (l : list (string * A)) :
  NoDup l.*1 → NoDup (assoc_set c v l).*1.
Proof.
  induction l as [|[k w] l IH]; simpl.
  - intros _. apply NoDup_singleton.
  - rewrite NoDup_cons. intros [Hk Hl]. case_bool_decide; simpl.
    + by apply NoDup_cons.
    + apply NoDup_cons. split; [|by apply IH].
      rewrite assoc_set_fst. naive_solver.
Qed.

Lemma assoc_elem_NoDup {A} c (v : A) (l : list (string * A)) :
  NoDup l.*1 → (c, v) ∈ l → assoc c l = Some v.
Proof.
  induction l as [|[k w] l IH]; simpl; [by intros _ ?%elem_of_nil|].
  rewrite NoDup_cons. intros [Hk Hl] [[= <- <-]|Hin]%elem_of_cons.
  - by rewrite bool_decide_true.
  - rewrite bool_decide_false; [by apply IH|].
    intros ->. apply Hk. apply list_elem_of_fmap. by exists (c, v).
Qed.

Lemma assoc_Some_elem {A} c (v : A) (l : list (string * A)) :
  assoc c l = Some v → (c, v) ∈ l.
Proof.
  induction l as [|[k w] l IH]; simpl; [done|].
  case_bool_decide; [intros [= <-]; subst; by left|].
  intros ?. right. by apply IH.
Qed.

Lemma assoc_None_fst {A} c (l : list (string * A)) :
  assoc c l = None ↔ c ∉ l.*1.
Proof.
  induction l as [|[k w] l IH]; simpl.
  - split; [intros _; apply not_elem_of_nil|done].
  - rewrite not_elem_of_cons. case_bool_decide; [subst; naive_solver|].
    rewrite IH. naive_solver.
Qed.

Lemma NoDup_filter_fst {A} (P : string * A → Prop) `{!∀ x, Decision (P x)}
    (l : list (string * A)) :
  NoDup l.*1 → NoDup (filter P l).*1.
Proof.
  intros Hnd. eapply sublist_NoDup; [exact Hnd|apply fmap_sublist, sublist_filter].
Qed.

Lemma has_column_set_column X c vs c' :
  has_column (set_column X c vs) c' = bool_decide (c' = c) || has_column X c'.
Proof.
  unfold has_column, set_column, columns. cbn [cols].
  apply eq_true_iff_eq. rewrite orb_true_iff, !bool_decide_eq_true.
  apply assoc_set_fst.
Qed.


Lemma has_column_false_column X c : has_column X c = false → column X c = [].
Proof.
  unfold has_column, column, columns. intros Hc%bool_decide_eq_false.
  apply assoc_None_fst in Hc. by rewrite Hc.
Qed.

Lemma ensure_nrows l X : nrows (foldl ensure_column X l) = nrows X.
Proof.
  revert X. induction l as [|f l IH]; intros X; simpl; [done|].
  rewrite IH. unfold ensure_column. by destruct (has_column X f).
Qed.

Lemma ensure_has_column l X c :
  has_column (foldl ensure_column X l) c = has_column X c || bool_decide (c ∈ l).
Proof.
  revert X. induction l as [|f l IH]; intros X; cbn [foldl].
  - rewrite bool_decide_false by apply not_elem_of_nil. by rewrite orb_false_r.
  - rewrite IH. unfold ensure_column.
    destruct (has_column X f) eqn:Hf.
    + destruct (decide (c = f)) as [->|Hne].
      * rewrite Hf. done.
      * destruct (has_column X c); [done|]. cbn [orb negb].
        apply bool_decide_ext. rewrite elem_of_cons. naive_solver.
    + unfold set_column_na. rewrite has_column_set_column.
      destruct (decide (c = f)) as [->|Hne].
      * rewrite bool_decide_true by done. cbn [orb negb].
        rewrite bool_decide_true by (by left). by rewrite orb_true_r.
      * rewrite bool_decide_false by done. cbn [orb negb].
        destruct (has_column X c); [done|]. cbn [orb negb].
        apply bool_decide_ext. rewrite elem_of_cons. naive_solver.
Qed.


Lemma ensure_NoDup l X : NoDup (columns X) → NoDup (columns (foldl ensure_column X l)).
Proof.
  revert X. induction l as [|f l IH]; intros X Hnd; simpl; [done|].
  apply IH. unfold ensure_column. destruct (has_column X f); [done|].
  by apply assoc_set_NoDup.
Qed.

(** X22.  The frame that [_normalize_columns] returns has the rows of its
    input and no repeated label; its labels are renamed labels of the
    input in their order; every column it keeps holds a value that is not
    NA; and every input column with such a value is found under its
    renamed label with its values.  An error is the ValueError. *)
Theorem X22_normalize_columns_result (raw : DataFrame) :
  match _normalize_columns raw with
  | inr df =>
      nrows df = nrows raw ∧
      NoDup (columns df) ∧
      columns df `sublist_of` renamed_labels raw ∧
      (∀ c, has_column df c = true → forallb isna (column df c) = false) ∧
      (∀ c0 vs, (c0, vs) ∈ cols raw → forallb isna vs = false →
         column df (default c0 (assoc (_norm (VStr c0)) aliases)) = vs) ∧
      (∀ c0 vs, (c0, vs) ∈ cols raw → forallb isna vs = true →
         has_column df (default c0 (assoc (_norm (VStr c0)) aliases)) = false)
  | inl e => e = ValueError
  end.
Proof.
  unfold _normalize_columns. cbv zeta.
  set (rename := λ '(c, vs), (default c (assoc (_norm (VStr c)) aliases), vs)
                 : string * list value).
  set (keep := λ cv : string * list value, forallb isna cv.2 = false).
  case_bool_decide as Hnd; [|done].
  assert (NoDup (filter keep (rename <$> cols raw)).*1) as Hnd'
    by (by apply NoDup_filter_fst).
  split; [done|]. split; [exact Hnd'|]. split.
  { unfold columns. cbn [cols]. rewrite <-normalize_columns_labels.
    apply fmap_sublist, sublist_filter. }
  split; [|split].
  - intros c Hc. unfold has_column, columns in Hc. cbn [cols] in Hc.
    apply bool_decide_eq_true in Hc.
    apply list_elem_of_fmap in Hc as ([c' vs] & -> & Hin). cbn [fst].
    unfold column. cbn [cols]. rewrite (assoc_elem_NoDup c' vs _ Hnd' Hin).
    by apply list_elem_of_filter in Hin as [Hk _].
  - intros c0 vs Hin Hvs. unfold column. cbn [cols].
    erewrite assoc_elem_NoDup; [done|exact Hnd'|].
    apply list_elem_of_filter. split; [exact Hvs|].
    apply list_elem_of_fmap. by exists (c0, vs).
  - intros c0 vs Hin Hvs. unfold has_column, columns. cbn [cols].
    apply bool_decide_eq_false. intros Hc.
    apply list_elem_of_fmap in Hc as ([c' vs'] & Hc & Hin').
    cbn [fst] in Hc. subst c'.
    apply list_elem_of_filter in Hin' as [Hk Hin']. unfold keep in Hk. cbn [snd] in Hk.
    assert (assoc (default c0 (assoc (_norm (VStr c0)) aliases)) (rename <$> cols raw)
            = Some vs) as H1.
    { apply assoc_elem_NoDup; [done|]. apply list_elem_of_fmap. by exists (c0, vs). }
    rewrite (assoc_elem_NoDup _ vs' _ Hnd Hin') in H1. congruence.
Qed.

(** The six assignments of [_coerce_and_derive], one frame after the
    other, and its closing loop. *)
Lemma coerce_and_derive_stages df :
  ∃ d1 d2 d3 d4 d5 d6 : DataFrame,
    _coerce_and_derive df = foldl ensure_column d6 DEDUPE_FIELDS ∧
    d1 = (if has_column df "Purchase Date" then
            set_column df "Purchase Date"
              ((λ v, match to_datetime v with Some dt => VDate dt | None => VNone end)
                 <$> column df "Purchase Date")
          else df) ∧
    d2 = (if has_column d1 "MSISDN" then
            set_column d1 "MSISDN"
              ((λ v, let s := PyStr.strip (astype_str v) in
                     if bool_decide (PyStr.lower s ∈ ["nan"; "none"; ""]) then VNone
                     else VStr s) <$> column d1 "MSISDN")
          else d1) ∧
    d3 = (if has_column d2 "Amount" then
            set_column d2 "PURCHASE_AMT"
              ((λ v, match to_numeric (PyStr.strip (PyStr.remove_char "$"
                                         (PyStr.remove_char "," (astype_str v)))) with
                     | Some x => VNum x
                     | None => VNone
                     end) <$> column d2 "Amount")
          else set_column_na d2 "PURCHASE_AMT") ∧
    d4 = (if has_column d3 "Prod Name"
          then set_column d3 "PRODUCT_NAME" (column d3 "Prod Name")
          else set_column_na d3 "PRODUCT_NAME") ∧
    d5 = (if has_column d4 "Prod Code"
          then set_column d4 "PRODUCT_ID" (column d4 "Prod Code")
          else set_column_na d4 "PRODUCT_ID") ∧
    d6 = (if has_column d5 "CRTR_ID"
          then set_column d5 "CONTRACT_ID" (column d5 "CRTR_ID")
          else set_column_na d5 "CONTRACT_ID").
Proof.
  pose (d1 := if has_column df "Purchase Date" then
                set_column df "Purchase Date"
                  ((λ v, match to_datetime v with Some dt => VDate dt | None => VNone end)
                     <$> column df "Purchase Date")
              else df).
  pose (d2 := if has_column d1 "MSISDN" then
                set_column d1 "MSISDN"
                  ((λ v, let s := PyStr.strip (astype_str v) in
                         if bool_decide (PyStr.lower s ∈ ["nan"; "none"; ""]) then VNone
                         else VStr s) <$> column d1 "MSISDN")
              else d1).
  pose (d3 := if has_column d2 "Amount" then
                set_column d2 "PURCHASE_AMT"
                  ((λ v, match to_numeric (PyStr.strip (PyStr.remove_char "$"
                                             (PyStr.remove_char "," (astype_str v)))) with
                         | Some x => VNum x
                         | None => VNone
                         end) <$> column d2 "Amount")
              else set_column_na d2 "PURCHASE_AMT").
  pose (d4 := if has_column d3 "Prod Name"
              then set_column d3 "PRODUCT_NAME" (column d3 "Prod Name")
              else set_column_na d3 "PRODUCT_NAME").
  pose (d5 := if has_column d4 "Prod Code"
              then set_column d4 "PRODUCT_ID" (column d4 "Prod Code")
              else set_column_na d4 "PRODUCT_ID").
  pose (d6 := if has_column d5 "CRTR_ID"
              then set_column d5 "CONTRACT_ID" (column d5 "CRTR_ID")
              else set_column_na d5 "CONTRACT_ID").
  exists d1, d2, d3, d4, d5, d6. repeat split; reflexivity.
Qed.

(** What [_coerce_and_derive] does to the rows and the labels. *)
Lemma coerce_and_derive_frame df :
  nrows (_coerce_and_derive df) = nrows df ∧
  (∀ c, has_column (_coerce_and_derive df) c = true ↔
          has_column df c = true ∨ c ∈ DEDUPE_FIELDS) ∧
  (NoDup (columns df) → NoDup (columns (_coerce_and_derive df))).
Proof.
  destruct (coerce_and_derive_stages df)
    as (d1 & d2 & d3 & d4 & d5 & d6 & -> & E1 & E2 & E3 & E4 & E5 & E6).
  assert (∀ X c vs d, d = (if has_column X c then set_column X c vs else X) →
            nrows d = nrows X ∧
            (∀ c', has_column d c' = has_column X c') ∧
            (NoDup (columns X) → NoDup (columns d))) as Hsame.
  { intros X c vs d ->. destruct (has_column X c) eqn:Hc; [|done].
    split; [done|]. split; [|apply assoc_set_NoDup].
    intros c'. rewrite has_column_set_column.
    destruct (decide (c' = c)) as [->|Hne].
    - by rewrite bool_decide_true, Hc.
    - by rewrite bool_decide_false. }
  assert (∀ X c vs (b : bool) d,
            d = (if b then set_column X c vs else set_column_na X c) →
            nrows d = nrows X ∧
            (∀ c', has_column d c' = bool_decide (c' = c) || has_column X c') ∧
            (NoDup (columns X) → NoDup (columns d))) as Hadd.
  { intros X c vs b d ->. unfold set_column_na.
    destruct b; (split; [done|]; split; [|apply assoc_set_NoDup]);
      intros c'; apply has_column_set_column. }
  destruct (Hsame _ _ _ d1 E1) as (N1 & H1 & D1).
  destruct (Hsame _ _ _ d2 E2) as (N2 & H2 & D2).
  destruct (Hadd _ _ _ _ d3 E3) as (N3 & H3 & D3).
  destruct (Hadd _ _ _ _ d4 E4) as (N4 & H4 & D4).
  destruct (Hadd _ _ _ _ d5 E5) as (N5 & H5 & D5).
  destruct (Hadd _ _ _ _ d6 E6) as (N6 & H6 & D6).
  clear Hsame Hadd E1 E2 E3 E4 E5 E6.
  split; [rewrite ensure_nrows; congruence|]. split.
  - intros c. rewrite ensure_has_column, H6, H5, H4, H3, H2, H1.
    unfold DEDUPE_FIELDS. rewrite !orb_true_iff, !bool_decide_eq_true.
    rewrite !elem_of_cons, elem_of_nil. tauto.
  - intros Hnd. apply ensure_NoDup. by apply D6, D5, D4, D3, D2, D1.
Qed.

(** X23.  [_coerce_and_derive] keeps the number of rows; the labels of its
    result are those of its input together with the six identity fields,
    and it repeats no label when its input repeats none. *)
Theorem X23_coerce_and_derive_labels df :
  nrows (_coerce_and_derive df) = nrows df ∧
  (∀ c, has_column (_coerce_and_derive df) c = true ↔
          has_column df c = true ∨ c ∈ DEDUPE_FIELDS) ∧
  (NoDup (columns df) → NoDup (columns (_coerce_and_derive df))).
Proof. exact (coerce_and_derive_frame df). Qed.


End FrameFacts.
(** * The finalisation, the monthly file and the report of a run *)

Section ReportFacts.
Context {R : PyRuntime}.
Implicit Types (ws : Worksheet) (df : DataFrame) (w : World).

Lemma expand_table_ref_cases (last_row : nat) (ref : string) :
  expand_table_ref last_row ref = ref ∨
  ∃ start end_,
    PyStr.split ":" ref = [start; end_] ∧
    PyStr.int (PyStr.filter_chars PyStr.is_digit start) = Some 1 ∧
    expand_table_ref last_row ref =
      PyStr.filter_chars PyStr.is_alpha start +:+ "1:" +:+
      PyStr.filter_chars PyStr.is_alpha end_ +:+ PyStr.str_nat last_row.
Proof.
  unfold expand_table_ref.
  destruct (PyStr.split ":" ref) as [|start [|end_ [|? ?]]]; try by left.
  destruct (PyStr.int (PyStr.filter_chars PyStr.is_digit start)) as [[|[|n]]|] eqn:Hn;
    try by left.
  right. by exists start, end_.
Qed.

(** X25.  [_expand_filters_and_tables] raises, with the ValueError of
    [get_column_letter], exactly when the header is wider than 18278
    columns.  Otherwise no cell changes; a sheet without an active filter
    keeps none, and an active filter becomes "A1:" up to the letter of the
    header width and the last used row; each table keeps its place, and
    its range either stays as it is or, when it has two parts and starts
    on row 1, keeps the letters of both ends and ends on the last used
    row. *)
Theorem X25_expand_filters_and_tables ws :
  match _expand_filters_and_tables ws with
  | inr ws' =>
      (N.of_nat (header_width ws) ≤ 18278)%N ∧
      cells ws' = cells ws ∧
      (auto_filter_ref ws = None → auto_filter_ref ws' = None) ∧
      (auto_filter_ref ws = Some "" → auto_filter_ref ws' = Some "") ∧
      (∀ ref, auto_filter_ref ws = Some ref → ref ≠ "" →
         ∃ letter, get_column_letter (header_width ws) = Some letter ∧
           auto_filter_ref ws' =
             Some ("A1:" +:+ letter +:+ PyStr.str_nat (last_used ws))) ∧
      length (tables ws') = length (tables ws) ∧
      (∀ i ref ref', tables ws !! i = Some ref → tables ws' !! i = Some ref' →
         ref' = ref ∨
         ∃ start end_,
           PyStr.split ":" ref = [start; end_] ∧
           PyStr.int (PyStr.filter_chars PyStr.is_digit start) = Some 1 ∧
           ref' = PyStr.filter_chars PyStr.is_alpha start +:+ "1:" +:+
                  PyStr.filter_chars PyStr.is_alpha end_ +:+
                  PyStr.str_nat (last_used ws))
  | inl e => e = ValueError ∧ (18278 < N.of_nat (header_width ws))%N
  end.
Proof.
  rewrite expand_eq.
  destruct (get_column_letter (header_width ws)) as [letter|] eqn:Hl.
  - apply get_column_letter_Some_bounds in Hl as Hb. destruct Hb as [_ Hb].
    cbn [cells auto_filter_ref tables].
    split; [done|]. split; [done|]. split; [by intros ->|]. split; [by intros ->|].
    split.
    { intros ref -> Href. exists letter. split; [done|]. by destruct ref. }
    split; [by rewrite length_fmap|].
    intros i ref ref' Hi Hi'. rewrite list_lookup_fmap, Hi in Hi'.
    injection Hi' as <-.
    destruct (expand_table_ref_cases (last_used ws) ref) as [->|(s & e & ? & ? & ->)];
      [by left|right; by exists s, e].
  - split; [done|].
    destruct (decide (N.of_nat (header_width ws) ≤ 18278)%N) as [Hle|]; [|lia].
    destruct (get_column_letter_is_Some (header_width ws)) as [l' Hl'];
      [apply header_width_ge_1|done|congruence].
Qed.

(** X26.  [_read_month_file] changes nothing.  It raises a RuntimeError
    when the file does not read as a frame and the ValueError of
    [_normalize_columns] when two labels collide after the renaming.
    Otherwise the frame it returns has as many rows as the one in the
    file, and a column for every identity field. *)
Theorem X26_read_month_file w (month : string) :
  match _read_month_file month w with
  | (w', inr df) =>
      w' = w ∧
      ∃ raw, fs w !! month ≫= df_view = Some raw ∧
        NoDup (renamed_labels raw) ∧
        nrows df = nrows raw ∧
        Forall (λ f, has_column df f = true) DEDUPE_FIELDS
  | (w', inl e) =>
      w' = w ∧
      match fs w !! month ≫= df_view with
      | None => ∃ msg, e = RuntimeError msg
      | Some raw => e = ValueError ∧ ¬ NoDup (renamed_labels raw)
      end
  end.
Proof.
  unfold _read_month_file. erewrite io_bind_inr by reflexivity.
  destruct (fs w !! month ≫= df_view) as [raw|] eqn:Hraw;
    [|split; [done|by eexists]].
  pose proof (normalize_columns_inr raw) as Hiff.
  unfold _normalize_columns in *. rewrite normalize_columns_labels in *.
  case_bool_decide as Hnd.
  - erewrite io_bind_inr by (unfold lift; reflexivity).
    split; [done|]. exists raw. split; [done|]. split; [done|].
    match goal with |- context [_coerce_and_derive ?d] =>
      destruct (coerce_and_derive_frame d) as (Hn & Hc & _) end.
    split; [by rewrite Hn|].
    apply Forall_forall. intros f Hf. apply Hc. by right.
  - erewrite io_bind_inl by (unfold lift; reflexivity). done.
Qed.

(** X27.  The report of a returning run names the master it was given,
    the sheet "APR Bundle" and the backup path of this run, and the backup
    (when its path is not the master's) holds the master as it was before
    the run.  The count of skipped duplicates is absent exactly when no
    column was resolved; in that case no row is added, the row counts
    agree and the master file is as before. *)
Theorem X27_returned_report w master month :
  match ingest_month_into_apr_bundle master month w with
  | (w', inr res) =>
      updated_master res = master ∧ sheet res = APR_SHEET ∧
      master_backup res = backup_path_of master (clock w) ∧
      (master_backup res ≠ master → fs w' !! master_backup res = fs w !! master) ∧
      (dedupe_skipped res = None ↔ resolved_map res = []) ∧
      (resolved_map res = [] →
         rows_added res = 0 ∧ rows_after res = rows_before res ∧
         (master_backup res ≠ master → fs w' !! master = fs w !! master))
  | (_, inl _) => True
  end.
Proof.
  destruct (ingest_cases w master month)
    as [[e ->]|(fm & wb & ws & df & Hfm & Hwb & Hws & Hdf)]; [done|].
  destruct (ingest_month_into_apr_bundle master month w) as [w' r] eqn:Hrun.
  rewrite (ingest_eq w master month fm wb ws df Hfm Hwb Hws Hdf) in Hrun.
  revert Hrun. generalize (backup_path_of master (clock w)). intros bp Hrun.
  injection Hrun as <- <-.
  destruct ((outcome master bp ws df).2) as [e|res] eqn:Hout; [done|].
  apply outcome_inr in Hout as (Hb & Hm & Hs & _ & _ & _ & Hcase).
  cbn [fs]. rewrite Hb. split; [done|]. split; [done|]. split; [done|].
  destruct Hcase as [(_ & -> & Hadd & Hafter & Hskip & Hmap)
                    |(Hne & ws' & _ & -> & _ & _ & Hskip & Hlet)].
  - unfold fs_after. split.
    { intros _. rewrite Hfm. apply lookup_insert_eq. }
    split; [by rewrite Hskip, Hmap|].
    intros _. split; [done|]. split; [done|].
    intros Hbp. by rewrite lookup_insert_ne.
  - unfold fs_after. split.
    { intros Hbp. rewrite lookup_insert_ne by done. rewrite Hfm.
      apply lookup_insert_eq. }
    apply column_letters_of_labels in Hlet.
    assert (resolved_map res ≠ []) as Hmap.
    { intros Hnil. rewrite Hnil in Hlet.
      destruct (resolved_of ws df); [done|discriminate Hlet]. }
    rewrite Hskip. split; [split; [done|by intros ?]|by intros ?].
Qed.

(** X28.  After a returning run the master still loads as a workbook:
    every sheet other than "APR Bundle" is as it was, and "APR Bundle" is
    there. *)
Theorem X28_other_sheets_kept w master month (name : string) :
  match ingest_month_into_apr_bundle master month w with
  | (w', inr _) =>
      ∃ wb wb',
        fs w !! master ≫= wb_view = Some wb ∧
        fs w' !! master ≫= wb_view = Some wb' ∧
        is_Some (wb' !! APR_SHEET) ∧
        (name ≠ APR_SHEET → wb' !! name = wb !! name)
  | (_, inl _) => True
  end.
Proof.
  destruct (ingest_cases w master month)
    as [[e ->]|(fm & wb & ws & df & Hfm & Hwb & Hws & Hdf)]; [done|].
  destruct (ingest_month_into_apr_bundle master month w) as [w' r] eqn:Hrun.
  rewrite (ingest_eq w master month fm wb ws df Hfm Hwb Hws Hdf) in Hrun.
  revert Hrun. generalize (backup_path_of master (clock w)). intros bp Hrun.
  injection Hrun as <- <-.
  destruct ((outcome master bp ws df).2) as [e|res] eqn:Hout; [done|].
  cbn [fs]. exists wb. rewrite Hfm. cbn [mbind option_bind]. rewrite Hwb.
  unfold fs_after.
  destruct ((outcome master bp ws df).1) as [ws'|].
  - exists (<[APR_SHEET := ws']> wb). rewrite lookup_insert_eq. cbn [mbind option_bind wb_view].
    split; [done|]. split; [done|]. split.
    + rewrite lookup_insert_eq. eauto.
    + intros Hne. by rewrite lookup_insert_ne.
  - exists wb. split; [done|]. split.
    + destruct (decide (bp = master)) as [->|Hne].
      * rewrite lookup_insert_eq. cbn [mbind option_bind]. done.
      * rewrite lookup_insert_ne by done. rewrite Hfm. cbn [mbind option_bind]. done.
    + split; [by rewrite Hws|done].
Qed.


(** X30.  The value that the write loop stores for a monthly cell: None
    for a missing value; outside the "Amount" and "Purchase Date" columns
    the value of [_coerce_for_excel]; in the "Amount" column a number is
    kept, and a text is stored only when it does not parse as a number,
    then stripped. *)
Theorem X30_cell_to_write df i (m_col : string) :
  (isna (iloc df i m_col) = true → cell_to_write df i m_col = VNone) ∧
  (m_col ≠ "Amount" → m_col ≠ "Purchase Date" →
     cell_to_write df i m_col = _coerce_for_excel (iloc df i m_col)) ∧
  (∀ x, iloc df i "Amount" = VNum x → cell_to_write df i "Amount" = VNum x) ∧
  (∀ s, cell_to_write df i "Amount" = VStr s →
     py_float s = None ∧ PyStr.strip s = s).
Proof.
  unfold cell_to_write. cbv zeta. split; [|split; [|split]].
  - destruct (iloc df i m_col); try done. intros _. cbn [_coerce_for_excel].
    by case_bool_decide.
  - intros H1 H2. rewrite (bool_decide_false (m_col = "Purchase Date")) by done.
    destruct (_coerce_for_excel (iloc df i m_col)); try done.
    by rewrite bool_decide_false.
  - intros x ->. done.
  - intros s. rewrite (bool_decide_false ("Amount" = "Purchase Date")) by done.
    rewrite (bool_decide_true ("Amount" = "Amount")) by done.
    destruct (iloc df i "Amount") as [|s0|x|t]; cbn [_coerce_for_excel]; try done.
    destruct (py_float (PyStr.strip (PyStr.remove_comma_dollar (PyStr.strip s0))))
      eqn:Hf; [done|].
    intros [= <-]. split; [done|apply strip_idem].
Qed.

End ReportFacts.

(** ** The string methods and the column letters on samples *)

Example get_column_letter_samples :
  get_column_letter 1 = Some "A" ∧ get_column_letter 26 = Some "Z" ∧
  get_column_letter 27 = Some "AA" ∧ get_column_letter 702 = Some "ZZ" ∧
  get_column_letter 703 = Some "AAA" ∧ get_column_letter 0 = None.
Proof. repeat split; reflexivity. Qed.

Example pystr_samples :
  PyStr.strip "  a b  " = "a b" ∧
  PyStr.collapse_spaces " API   Credit  Type " = " API Credit Type " ∧
  PyStr.lower "API Credit_Type 9" = "api credit_type 9" ∧
  PyStr.split ":" "A1:C10" = ["A1"; "C10"] ∧
  PyStr.split ":" "A1" = ["A1"] ∧
  PyStr.int "0120" = Some 120 ∧ PyStr.int "" = None ∧
  PyStr.str_nat 120 = "120".
Proof. repeat split; reflexivity. Qed.
